(** * env-change: a verification development

  Shallow embedding of the core of the environment switcher extension:
  - [JsString]  : the JavaScript string built-ins the sources call;
  - [Storage]   : src/storage.ts        (domain matching);
  - [Dom]       : the document as a tree of elements, selectors in parsed
                  form, and their matching;
  - [Selector]  : content/selector.ts   (selector synthesis, highlight,
                  picker state machine);
  - [Switcher]  : content/switcher.ts   (waiting, filling, the two phases
                  of an environment switch).

  Strings are byte strings; the case mapping and the white space class are
  the ASCII ones (host names are ASCII). *)

From Stdlib Require Import String Ascii ZArith List Bool Lia DecimalString.
From stdpp Require Import gmap strings list.

Local Set Warnings "-register-all".

(* ===================================================================== *)
(** ** JavaScript string built-ins *)
(* ===================================================================== *)

Module JsString.

Definition is_upper (c : ascii) : bool :=
  let n := nat_of_ascii c in (65 <=? n)%nat && (n <=? 90)%nat.

Definition lower_char (c : ascii) : ascii :=
  if is_upper c then ascii_of_nat (nat_of_ascii c + 32) else c.

(** [String.prototype.toLowerCase] *)
Fixpoint toLowerCase (s : string) : string :=
  match s with
  | EmptyString => EmptyString
  | String c r => String (lower_char c) (toLowerCase r)
  end.

(** White space and line terminators: TAB, LF, VT, FF, CR, SP. *)
Definition is_space (c : ascii) : bool :=
  let n := nat_of_ascii c in
  ((9 <=? n)%nat && (n <=? 13)%nat) || (n =? 32)%nat.

Fixpoint trimStart (s : string) : string :=
  match s with
  | EmptyString => EmptyString
  | String c r => if is_space c then trimStart r else s
  end.

Fixpoint trimEnd (s : string) : string :=
  match s with
  | EmptyString => EmptyString
  | String c r =>
      match trimEnd r with
      | EmptyString => if is_space c then EmptyString else String c EmptyString
      | r' => String c r'
      end
  end.

(** [String.prototype.trim] *)
Definition trim (s : string) : string := trimEnd (trimStart s).

(** [s.startsWith(p)] *)
Fixpoint startsWith (s p : string) {struct p} : bool :=
  match p, s with
  | EmptyString, _ => true
  | String a p', String b s' => Ascii.eqb a b && startsWith s' p'
  | String _ _, EmptyString => false
  end.

(** [s.slice(n)] for [0 <= n] *)
Fixpoint slice (s : string) (n : nat) {struct n} : string :=
  match n, s with
  | O, _ => s
  | S n', String _ r => slice r n'
  | S _, EmptyString => EmptyString
  end.

(** [s.endsWith(suf)] *)
Definition endsWith (s suf : string) : bool :=
  (String.length suf <=? String.length s)%nat
  && String.eqb (slice s (String.length s - String.length suf)) suf.

(** [xs.join(sep)] *)
Fixpoint join (sep : string) (xs : list string) : string :=
  match xs with
  | [] => EmptyString
  | [x] => x
  | x :: rest => x +:+ sep +:+ join sep rest
  end.

(** Decimal rendering of a number inside a template literal. *)
Definition of_nat (n : nat) : string :=
  NilEmpty.string_of_uint (Nat.to_uint n).

End JsString.

(* ===================================================================== *)
(** ** src/storage.ts *)
(* ===================================================================== *)

Module Storage.
Import JsString.

(** [matchDomain(hostname, pattern)] *)
Definition matchDomain (hostname pattern : string) : bool :=
  let pattern := toLowerCase (trim pattern) in
  let hostname := toLowerCase hostname in
  if startsWith pattern "*." then
    let baseDomain := slice pattern 2 in
    String.eqb hostname baseDomain || endsWith hostname ("." +:+ baseDomain)
  else String.eqb hostname pattern.

(** [isCurrentDomainAllowed(allowedDomains)]; the page's
    [window.location.hostname] is the first argument, an absent list is
    [None]. *)
Definition isCurrentDomainAllowed
    (hostname : string) (allowedDomains : option (list string)) : bool :=
  match allowedDomains with
  | None => true
  | Some [] => true
  | Some pats => existsb (fun pattern => matchDomain hostname pattern) pats
  end.


End Storage.

(* ===================================================================== *)
(** ** The document: element tree, element handles, selectors *)
(* ===================================================================== *)

Module Dom.
Import JsString.

(** An element with the properties the sources read: [tagName], [id],
    [classList], the remaining attributes (for [getAttribute]) and the
    element children ([children]; text nodes are not elements). *)
Inductive Element : Type :=
  Elem (tag : string) (ident : string) (classes : list string)
       (attrs : list (string * string)) (kids : list Element).

Definition tagName (e : Element) : string := let (t, _, _, _, _) := e in t.
Definition id (e : Element) : string := let (_, i, _, _, _) := e in i.
Definition classList (e : Element) : list string := let (_, _, c, _, _) := e in c.
Definition attributes (e : Element) : list (string * string) :=
  let (_, _, _, a, _) := e in a.
Definition children (e : Element) : list Element := let (_, _, _, _, k) := e in k.

(** [e.getAttribute(name)]: [None] is JavaScript's [null]. *)
Fixpoint assoc (k : string) (l : list (string * string)) : option string :=
  match l with
  | [] => None
  | (k', v) :: r => if String.eqb k k' then Some v else assoc k r
  end.
Definition getAttribute (e : Element) (name : string) : option string :=
  assoc name (attributes e).

(** A document is its root element ([document.documentElement]).  An
    element handle is the position of the element in the tree, written
    from the element upwards: the head is the element's index among its
    parent's children, the tail is the parent's handle, [[]] is the root.
    Two handles are the same JavaScript object iff they are equal. *)
Definition Doc : Type := Element.
Definition Handle : Type := list nat.

Fixpoint descend (e : Element) (down : list nat) : option Element :=
  match down with
  | [] => Some e
  | i :: rest =>
      match children e !! i with
      | Some c => descend c rest
      | None => None
      end
  end.

(** The element a handle denotes in the document. *)
Definition node (doc : Doc) (h : Handle) : option Element := descend doc (rev h).

(** [h.parentElement] *)
Definition parentElement (h : Handle) : option Handle :=
  match h with
  | [] => None
  | _ :: parent => Some parent
  end.

(** [document.body]: the first child of the [html] root that is a [body]
    or a [frameset]. *)
Fixpoint firstBody (kids : list Element) (i : nat) : option Handle :=
  match kids with
  | [] => None
  | k :: rest =>
      if String.eqb (tagName k) "BODY" || String.eqb (tagName k) "FRAMESET"
      then Some [i] else firstBody rest (S i)
  end.
Definition body (doc : Doc) : option Handle :=
  if String.eqb (tagName doc) "HTML" then firstBody (children doc) 0 else None.

(** Handles of an element and of all its descendants, in document order. *)
Fixpoint handlesFrom (e : Element) (here : Handle) : list Handle :=
  here ::
  (fix go (cs : list Element) (i : nat) : list Handle :=
     match cs with
     | [] => []
     | c :: cs' => handlesFrom c (i :: here) ++ go cs' (S i)
     end) (children e) 0%nat.

Definition allElements (doc : Doc) : list Handle := handlesFrom doc [].

(** *** [CSS.escape] (CSSOM), on bytes *)

Definition is_digit (c : ascii) : bool :=
  let n := nat_of_ascii c in (48 <=? n)%nat && (n <=? 57)%nat.
Definition is_alpha (c : ascii) : bool :=
  let n := nat_of_ascii c in
  ((65 <=? n)%nat && (n <=? 90)%nat) || ((97 <=? n)%nat && (n <=? 122)%nat).
Definition is_control (c : ascii) : bool :=
  let n := nat_of_ascii c in
  ((1 <=? n)%nat && (n <=? 31)%nat) || (n =? 127)%nat.

Definition hex_digit (n : nat) : ascii :=
  if (n <? 10)%nat then ascii_of_nat (48 + n) else ascii_of_nat (87 + n).
Definition hex (n : nat) : string :=
  if (n <? 16)%nat then String (hex_digit n) EmptyString
  else String (hex_digit (n / 16)) (String (hex_digit (n mod 16)) EmptyString).

Definition dash : ascii := "-"%char.
Definition backslash : ascii := "\"%char.

Definition escape_code_point (c : ascii) : string :=
  String backslash (hex (nat_of_ascii c) +:+ " ").

Fixpoint escape_from (whole : string) (i : nat) (s : string) : string :=
  match s with
  | EmptyString => EmptyString
  | String c r =>
      let first := match whole with String f _ => f | EmptyString => c end in
      let piece :=
        if (nat_of_ascii c =? 0)%nat then
          String (ascii_of_nat 239) (String (ascii_of_nat 191)
            (String (ascii_of_nat 189) EmptyString))
        else if is_control c
                || ((i =? 0)%nat && is_digit c)
                || ((i =? 1)%nat && is_digit c && Ascii.eqb first dash)
        then escape_code_point c
        else if (i =? 0)%nat && Ascii.eqb c dash
                && (String.length whole =? 1)%nat
        then String backslash (String c EmptyString)
        else if (128 <=? nat_of_ascii c)%nat || Ascii.eqb c dash
                || Ascii.eqb c "_"%char || is_digit c || is_alpha c
        then String c EmptyString
        else String backslash (String c EmptyString)
      in piece +:+ escape_from whole (S i) r
  end.

Definition CSS_escape (value : string) : string := escape_from value 0 value.

(** *** Selectors, in parsed form

    A selector is a chain of compound selectors linked by the child
    combinator; [render] is its text.  The forms are those the
    synthesizer builds; values are kept unescaped and escaped by
    [render], as [CSS.escape] does in the template literals. *)
Inductive Compound : Type :=
| ById (ident : string)
| ByAttr (tag attr value : string)
| ByClasses (tag : string) (classes : list string)
| ByTag (tag : string) (nth : option nat).

Definition Selector : Type := list Compound.

Definition quote : string := String (ascii_of_nat 34) EmptyString.

Definition renderCompound (c : Compound) : string :=
  match c with
  | ById i => "#" +:+ CSS_escape i
  | ByAttr tag attr v =>
      tag +:+ "[" +:+ attr +:+ "=" +:+ quote +:+ CSS_escape v +:+ quote +:+ "]"
  | ByClasses tag cs =>
      tag +:+ join "" (map (fun c => "." +:+ CSS_escape c) cs)
  | ByTag tag None => tag
  | ByTag tag (Some n) => tag +:+ ":nth-child(" +:+ of_nat n +:+ ")"
  end.

Definition render (s : Selector) : string := join " > " (map renderCompound s).

(** *** Matching *)

Definition tagMatches (e : Element) (tag : string) : bool :=
  String.eqb (toLowerCase (tagName e)) (toLowerCase tag).

Definition inb (x : string) (l : list string) : bool :=
  existsb (String.eqb x) l.

Definition option_eqb (a : option string) (b : string) : bool :=
  match a with
  | Some x => String.eqb x b
  | None => false
  end.

Definition matchCompound (doc : Doc) (h : Handle) (c : Compound) : bool :=
  match node doc h with
  | None => false
  | Some e =>
      match c with
      | ById i => String.eqb (id e) i
      | ByAttr tag attr v => tagMatches e tag && option_eqb (getAttribute e attr) v
      | ByClasses tag cs =>
          tagMatches e tag && forallb (fun c => inb c (classList e)) cs
      | ByTag tag None => tagMatches e tag
      | ByTag tag (Some n) =>
          tagMatches e tag
          && match h with
             | i :: _ => (n =? S i)%nat
             | [] => (n =? 1)%nat
             end
      end
  end.

(** The chain is given subject first: the element, then its parent, ... *)
Fixpoint matchUp (doc : Doc) (h : Handle) (chain : list Compound)
    {struct chain} : bool :=
  match chain with
  | [] => true
  | c :: up =>
      matchCompound doc h c
      && match up, h with
         | [], _ => true
         | _ :: _, _ :: parent => matchUp doc parent up
         | _ :: _, [] => false
         end
  end.

Definition matches (doc : Doc) (s : Selector) (h : Handle) : bool :=
  match s with
  | [] => false
  | _ => matchUp doc h (rev s)
  end.

(** [document.querySelectorAll(s)] *)
Definition querySelectorAll (doc : Doc) (s : Selector) : list Handle :=
  filter (fun h => matches doc s h = true) (allElements doc).

(** [h.querySelector("input, textarea")]: the first proper descendant
    that is an input or a textarea. *)
Definition isInputLike (doc : Doc) (h : Handle) : bool :=
  match node doc h with
  | Some e => tagMatches e "input" || tagMatches e "textarea"
  | None => false
  end.

Definition querySelectorInput (doc : Doc) (h : Handle) : option Handle :=
  match node doc h with
  | Some e => List.find (isInputLike doc) (tl (handlesFrom e h))
  | None => None
  end.

(** [h.closest("#" + ident)]: the nearest of the element and its
    ancestors that carries the id. *)
Fixpoint closestId (doc : Doc) (h : Handle) (ident : string) : option Handle :=
  match node doc h with
  | Some e =>
      if String.eqb (id e) ident then Some h
      else match h with
           | [] => None
           | _ :: parent => closestId doc parent ident
           end
  | None => None
  end.

End Dom.

(* ===================================================================== *)
(** ** content/selector.ts *)
(* ===================================================================== *)

Module Selector.
Import JsString Dom.

(** *** Selector synthesis *)

Fixpoint all_alnum (s : string) : bool :=
  match s with
  | EmptyString => true
  | String c r => (is_alpha c || is_digit c) && all_alnum r
  end.

(** [UNSTABLE_CLASS_PATTERNS]: [/^css-/], [/^sc-/], [/^emotion-/],
    [/^_[a-zA-Z0-9]+$/], each as its test. *)
Definition UNSTABLE_CLASS_PATTERNS : list (string -> bool) :=
  [ (fun c => startsWith c "css-");
    (fun c => startsWith c "sc-");
    (fun c => startsWith c "emotion-");
    (fun c => match c with
              | String u r =>
                  Ascii.eqb u "_"%char
                  && negb (String.eqb r EmptyString) && all_alnum r
              | EmptyString => false
              end) ].

Definition isStableClass (className : string) : bool :=
  negb (existsb (fun pattern => pattern className) UNSTABLE_CLASS_PATTERNS).

(** Truthiness of a string. *)
Definition truthy (s : string) : bool := negb (String.eqb s EmptyString).

(** The candidate blocks of [generateSelectorForElement], one per
    attribute consulted; [None] when the block falls through. *)
Definition idCandidate (e : Element) : option Selector :=
  if truthy (id e) then Some [ById (id e)] else None.

Definition attrCandidate (doc : Doc) (e : Element) (attr : string)
  : option Selector :=
  match getAttribute e attr with
  | Some v =>
      if truthy v then
        let tagName := toLowerCase (tagName e) in
        let selector := [ByAttr tagName attr v] in
        if (length (querySelectorAll doc selector) =? 1)%nat
        then Some selector else None
      else None
  | None => None
  end.

Definition classCandidate (doc : Doc) (e : Element) : option Selector :=
  if (0 <? length (classList e))%nat then
    let stableClasses := List.filter isStableClass (classList e) in
    if (0 <? length stableClasses)%nat then
      let tagName := toLowerCase (tagName e) in
      let selector := [ByClasses tagName stableClasses] in
      if (length (querySelectorAll doc selector) =? 1)%nat
      then Some selector else None
    else None
  else None.

(** One turn of the fallback loop for an element without id: its tag,
    with [:nth-child] when the parent has several children of that tag. *)
Definition pathSegment (doc : Doc) (current : Handle) (e : Element) : Compound :=
  let selector := toLowerCase (tagName e) in
  match current with
  | index :: parent =>
      match node doc parent with
      | Some p =>
          let siblings := children p in
          if (1 <? length (List.filter
                             (fun s => String.eqb (tagName s) (tagName e))
                             siblings))%nat
          then ByTag selector (Some (index + 1)%nat)
          else ByTag selector None
      | None => ByTag selector None
      end
  | [] => ByTag selector None
  end.

(** The fallback loop: [path] is the array built so far ([unshift] puts
    a segment in front), [current] the element the loop stands on. *)
Fixpoint walk (doc : Doc) (current : Handle) (path : Selector) : Selector :=
  if bool_decide (body doc = Some current) then path
  else
    match node doc current with
    | None => path
    | Some e =>
        if truthy (id e) then ById (id e) :: path
        else
          let path := pathSegment doc current e :: path in
          match current with
          | [] => path
          | _ :: parent => walk doc parent path
          end
    end.

(** [generateSelectorForElement(el)] *)
Definition generateSelectorForElement (doc : Doc) (el : Handle) : Selector :=
  match node doc el with
  | None => []
  | Some e =>
      match idCandidate e with
      | Some s => s
      | None =>
      match attrCandidate doc e "name" with
      | Some s => s
      | None =>
      match classCandidate doc e with
      | Some s => s
      | None =>
      match attrCandidate doc e "placeholder" with
      | Some s => s
      | None =>
      match attrCandidate doc e "type" with
      | Some s => s
      | None => walk doc el []
      end end end end end
  end.

(** [generateSelector(el)] *)
Definition generateSelector (doc : Doc) (el : Handle) : Selector :=
  let direct := generateSelectorForElement doc el in
  match node doc el with
  | None => direct
  | Some e =>
      if negb (String.eqb (tagName e) "INPUT")
         && negb (String.eqb (tagName e) "TEXTAREA")
      then
        match querySelectorInput doc el with
        | Some innerInput =>
            let innerSelector := generateSelectorForElement doc innerInput in
            if truthy (render innerSelector) then innerSelector else direct
        | None => direct
        end
      else direct
  end.


(** The fallback path in the specification's words: the chain of the
    element and its ancestors below [document.body], cut at the first
    one carrying an id, which becomes the [#id] anchor; every other link
    is its tag, numbered when same-tag siblings exist.  Listed from the
    element upwards. *)
Fixpoint selfAndAncestors (h : Handle) : list Handle :=
  h :: match h with
       | [] => []
       | _ :: parent => selfAndAncestors parent
       end.

Fixpoint untilBody (doc : Doc) (hs : list Handle) : list Handle :=
  match hs with
  | [] => []
  | h :: rest =>
      if bool_decide (body doc = Some h) then [] else h :: untilBody doc rest
  end.

(** How many children of the element's parent carry its tag. *)
Definition sameTagSiblings (doc : Doc) (h : Handle) (e : Element) : nat :=
  match parentElement h with
  | Some parent =>
      match node doc parent with
      | Some p =>
          length (List.filter (fun s => String.eqb (tagName s) (tagName e))
                              (children p))
      | None => 0
      end
  | None => 0
  end.

(** The element's position among its parent's children, from 1. *)
Definition position (h : Handle) : nat :=
  match h with
  | i :: _ => S i
  | [] => 1
  end.

Definition tagSegment (doc : Doc) (h : Handle) (e : Element) : Compound :=
  if (2 <=? sameTagSiblings doc h e)%nat
  then ByTag (toLowerCase (tagName e)) (Some (position h))
  else ByTag (toLowerCase (tagName e)) None.

Fixpoint anchored (doc : Doc) (hs : list Handle) : list Compound :=
  match hs with
  | [] => []
  | h :: rest =>
      match node doc h with
      | None => []
      | Some e =>
          if truthy (id e) then [ById (id e)]
          else tagSegment doc h e :: anchored doc rest
      end
  end.

Definition fallbackChain (doc : Doc) (el : Handle) : list Compound :=
  anchored doc (untilBody doc (selfAndAncestors el)).

Definition noCandidate (doc : Doc) (e : Element) : Prop :=
  idCandidate e = None /\ attrCandidate doc e "name" = None
  /\ classCandidate doc e = None /\ attrCandidate doc e "placeholder" = None
  /\ attrCandidate doc e "type" = None.

(** *** Highlight *)

Record Style : Type := mkStyle
  { outline : string; outlineOffset : string; backgroundColor : string }.

Definition HIGHLIGHT_STYLE : Style :=
  {| outline := "2px solid #3b82f6";
     outlineOffset := "2px";
     backgroundColor := "rgba(59, 130, 246, 0.1)" |}.

Definition noStyle : Style :=
  {| outline := ""; outlineOffset := ""; backgroundColor := "" |}.

Definition SelectionCallback : Type := nat.

Inductive EventType : Type := MouseMove | Click | KeyDown.
Inductive Handler : Type := HandleMouseMove | HandleClick | HandleKeyDown.
(** A capture-phase listener of [document]. *)
Definition Listener : Type := (EventType * Handler)%type.

#[global] Instance EventType_eq_dec : EqDecision EventType.
Proof. solve_decision. Defined.
#[global] Instance Handler_eq_dec : EqDecision Handler.
Proof. solve_decision. Defined.

(** The module's variables together with the parts of the page it
    writes (console output is left out): the inline styles of elements (an element without entry has
    the three properties empty), the listeners registered on [document]
    and [document.body.style.cursor]. *)
Record State : Type := mkState
  { isSelecting : bool;
    currentHighlighted : option Handle;
    onSelectCallback : option SelectionCallback;
    originalStyles : gmap Handle Style;
    inlineStyles : gmap Handle Style;
    listeners : list Listener;
    bodyCursor : string }.

Definition styleOf (st : State) (el : Handle) : Style :=
  default noStyle (inlineStyles st !! el).

Definition addHighlight (st : State) (el : Handle) : State :=
  let saved := {| outline := outline (styleOf st el);
                  outlineOffset := outlineOffset (styleOf st el);
                  backgroundColor := backgroundColor (styleOf st el) |} in
  {| isSelecting := isSelecting st;
     currentHighlighted := currentHighlighted st;
     onSelectCallback := onSelectCallback st;
     originalStyles := <[el := saved]> (originalStyles st);
     inlineStyles := <[el := HIGHLIGHT_STYLE]> (inlineStyles st);
     listeners := listeners st;
     bodyCursor := bodyCursor st |}.

Definition removeHighlight (st : State) (el : Handle) : State :=
  match originalStyles st !! el with
  | Some original =>
      {| isSelecting := isSelecting st;
         currentHighlighted := currentHighlighted st;
         onSelectCallback := onSelectCallback st;
         originalStyles := delete el (originalStyles st);
         inlineStyles := <[el := original]> (inlineStyles st);
         listeners := listeners st;
         bodyCursor := bodyCursor st |}
  | None => st
  end.

(** *** The picker *)

Definition setHighlighted (st : State) (h : option Handle) : State :=
  {| isSelecting := isSelecting st;
     currentHighlighted := h;
     onSelectCallback := onSelectCallback st;
     originalStyles := originalStyles st;
     inlineStyles := inlineStyles st;
     listeners := listeners st;
     bodyCursor := bodyCursor st |}.

(** [document.addEventListener(type, handler, true)]: a listener already
    registered is not registered twice. *)
Definition addEventListener (st : State) (l : Listener) : State :=
  {| isSelecting := isSelecting st;
     currentHighlighted := currentHighlighted st;
     onSelectCallback := onSelectCallback st;
     originalStyles := originalStyles st;
     inlineStyles := inlineStyles st;
     listeners := if bool_decide (l ∈ listeners st) then listeners st
                  else listeners st ++ [l];
     bodyCursor := bodyCursor st |}.

(** [document.removeEventListener(type, handler, true)] *)
Definition removeEventListener (st : State) (l : Listener) : State :=
  {| isSelecting := isSelecting st;
     currentHighlighted := currentHighlighted st;
     onSelectCallback := onSelectCallback st;
     originalStyles := originalStyles st;
     inlineStyles := inlineStyles st;
     listeners := List.filter (fun l' => negb (bool_decide (l' = l))) (listeners st);
     bodyCursor := bodyCursor st |}.

Definition sessionListeners : list Listener :=
  [ (MouseMove, HandleMouseMove); (Click, HandleClick); (KeyDown, HandleKeyDown) ].

(** What the three [removeEventListener] calls of [stopSelecting] leave
    of a listener list. *)
Definition strip (l : list Listener) : list Listener :=
  List.filter (fun l' => negb (bool_decide (l' = (KeyDown, HandleKeyDown))))
    (List.filter (fun l' => negb (bool_decide (l' = (Click, HandleClick))))
       (List.filter (fun l' => negb (bool_decide (l' = (MouseMove, HandleMouseMove)))) l)).

(** [stopSelecting()] *)
Definition stopSelecting (st : State) : State :=
  let st := {| isSelecting := false;
               currentHighlighted := currentHighlighted st;
               onSelectCallback := None;
               originalStyles := originalStyles st;
               inlineStyles := inlineStyles st;
               listeners := listeners st;
               bodyCursor := bodyCursor st |} in
  let st := match currentHighlighted st with
            | Some cur => setHighlighted (removeHighlight st cur) None
            | None => st
            end in
  let st := removeEventListener st (MouseMove, HandleMouseMove) in
  let st := removeEventListener st (Click, HandleClick) in
  let st := removeEventListener st (KeyDown, HandleKeyDown) in
  {| isSelecting := isSelecting st;
     currentHighlighted := currentHighlighted st;
     onSelectCallback := onSelectCallback st;
     originalStyles := originalStyles st;
     inlineStyles := inlineStyles st;
     listeners := listeners st;
     bodyCursor := "" |}.

(** [startSelecting(callback)] *)
Definition startSelecting (st : State) (callback : SelectionCallback) : State :=
  let st := if isSelecting st then stopSelecting st else st in
  let st := {| isSelecting := true;
               currentHighlighted := currentHighlighted st;
               onSelectCallback := Some callback;
               originalStyles := originalStyles st;
               inlineStyles := inlineStyles st;
               listeners := listeners st;
               bodyCursor := bodyCursor st |} in
  let st := addEventListener st (MouseMove, HandleMouseMove) in
  let st := addEventListener st (Click, HandleClick) in
  let st := addEventListener st (KeyDown, HandleKeyDown) in
  {| isSelecting := isSelecting st;
     currentHighlighted := currentHighlighted st;
     onSelectCallback := onSelectCallback st;
     originalStyles := originalStyles st;
     inlineStyles := inlineStyles st;
     listeners := listeners st;
     bodyCursor := "crosshair" |}.

(** [isInSelectMode()] *)
Definition isInSelectMode (st : State) : bool := isSelecting st.

(** Whether the element lies in the extension's own UI. *)
Definition inOwnUi (doc : Doc) (target : Handle) : bool :=
  match closestId doc target "crxjs-app" with
  | Some _ => true
  | None => false
  end.

(** [handleMouseMove(e)], [target] being [e.target]. *)
Definition handleMouseMove (doc : Doc) (st : State) (target : Handle) : State :=
  if inOwnUi doc target then st
  else
    let st := match currentHighlighted st with
              | Some cur =>
                  if negb (bool_decide (cur = target))
                  then removeHighlight st cur else st
              | None => st
              end in
    if negb (bool_decide (currentHighlighted st = Some target))
    then setHighlighted (addHighlight st target) (Some target)
    else st.

(** What a handler did besides changing the state: the flags it set on
    the event and the callbacks it invoked, with their argument, in
    order.  The state returned with it is the state at the invocation. *)
Record Outcome : Type := mkOutcome
  { defaultPrevented : bool;
    propagationStopped : bool;
    invoked : list (SelectionCallback * string) }.

Definition quiet : Outcome :=
  {| defaultPrevented := false; propagationStopped := false; invoked := [] |}.

(** [handleClick(e)] *)
Definition handleClick (doc : Doc) (st : State) (target : Handle)
  : State * Outcome :=
  if inOwnUi doc target then
    (st, {| defaultPrevented := true; propagationStopped := true; invoked := [] |})
  else
    let selector := render (generateSelector doc target) in
    let callback := onSelectCallback st in
    let st := stopSelecting st in
    (st, {| defaultPrevented := true; propagationStopped := true;
            invoked := match callback with
                       | Some cb => [(cb, selector)]
                       | None => []
                       end |}).

(** [handleKeyDown(e)], [key] being [e.key]. *)
Definition handleKeyDown (st : State) (key : string) : State :=
  if String.eqb key "Escape" then stopSelecting st else st.

(** *** The picker as a transition system *)

Inductive DomEvent : Type :=
| EvMouseMove (target : Handle)
| EvClick (target : Handle)
| EvKeyDown (key : string).

Definition eventType (ev : DomEvent) : EventType :=
  match ev with
  | EvMouseMove _ => MouseMove
  | EvClick _ => Click
  | EvKeyDown _ => KeyDown
  end.

Definition runHandler (doc : Doc) (h : Handler) (ev : DomEvent) (st : State)
  : State * Outcome :=
  match h, ev with
  | HandleMouseMove, EvMouseMove t => (handleMouseMove doc st t, quiet)
  | HandleClick, EvClick t => handleClick doc st t
  | HandleKeyDown, EvKeyDown k => (handleKeyDown st k, quiet)
  | _, _ => (st, quiet)
  end.

Definition joinOutcome (a b : Outcome) : Outcome :=
  {| defaultPrevented := defaultPrevented a || defaultPrevented b;
     propagationStopped := propagationStopped a || propagationStopped b;
     invoked := invoked a ++ invoked b |}.

(** Delivery of an event to [document]: the listeners registered for its
    type when the event arrives run in registration order; one removed
    by an earlier listener no longer runs. *)
Fixpoint deliver (doc : Doc) (ev : DomEvent) (ls : list Listener)
    (st : State) (out : Outcome) : State * Outcome :=
  match ls with
  | [] => (st, out)
  | (ty, h) :: rest =>
      if bool_decide (ty = eventType ev) && bool_decide ((ty, h) ∈ listeners st)
      then let (st', o) := runHandler doc h ev st in
           deliver doc ev rest st' (joinOutcome out o)
      else deliver doc ev rest st out
  end.

Definition dispatch (doc : Doc) (st : State) (ev : DomEvent) : State * Outcome :=
  deliver doc ev (listeners st) st quiet.

(** What can happen to the module: calls of its exports by the panel,
    events of the page, and the preview highlight with its timer. *)
Inductive Action : Type :=
| Start (callback : SelectionCallback)
| Stop
| Event (ev : DomEvent)
| Preview (el : Handle)
| PreviewEnd (el : Handle).

Definition step (doc : Doc) (st : State) (a : Action) : State :=
  match a with
  | Start cb => startSelecting st cb
  | Stop => stopSelecting st
  | Event ev => fst (dispatch doc st ev)
  | Preview el => addHighlight st el
  | PreviewEnd el => removeHighlight st el
  end.

(** The state when the content script is loaded. *)
Definition initial (styles : gmap Handle Style) (cursor : string) : State :=
  {| isSelecting := false;
     currentHighlighted := None;
     onSelectCallback := None;
     originalStyles := ∅;
     inlineStyles := styles;
     listeners := [];
     bodyCursor := cursor |}.

Definition run (doc : Doc) (st : State) (acts : list Action) : State :=
  fold_left (step doc) acts st.

Definition idle (st : State) : Prop :=
  isSelecting st = false /\ onSelectCallback st = None
  /\ currentHighlighted st = None /\ listeners st = [].

Definition selecting (st : State) : Prop :=
  isSelecting st = true /\ is_Some (onSelectCallback st)
  /\ listeners st = sessionListeners.

(** The two states of the picker. *)
Definition consistent (st : State) : Prop := idle st \/ selecting st.

End Selector.

(* ===================================================================== *)
(** ** content/switcher.ts *)
(* ===================================================================== *)

Module FieldConfig.
Record t : Type := make
  { id : string; selector : string; value : string; label : string }.
End FieldConfig.

Module EnvConfig.
Record t : Type := make
  { id : string; name : string; loginUrl : string;
    fields : list FieldConfig.t; loginButtonSelector : option string }.
End EnvConfig.

(** The object under the pending-fill key. *)
Module FillData.
Record t : Type := make
  { envId : string; fields : list FieldConfig.t;
    loginButtonSelector : option string; timestamp : Z }.
End FillData.

Module Switcher.
Import Dom.

(** A value of [chrome.storage.local]: a string or something else. *)
Inductive StoreVal : Type :=
| VString (s : string)
| VOther.

(** The page and the extension store, as the module reads and writes
    them. [now] is [Date.now()]; [storageAccess] tells whether
    [localStorage] and [sessionStorage] can be used without a throw. *)
Record World : Type := mkWorld
  { now : Z;
    chromeStorage : gmap string StoreVal;
    localStorage : gmap string string;
    sessionStorage : gmap string string;
    storageAccess : bool;
    href : string }.

Inductive Level : Type := Log | Warn | Error.

Inductive Msg : Type :=
| ElementNotFound (selector : string)
| InnerInputFound
| NotAnInput (selector : string)
| FieldFilled (label : string)
| FieldFailed (label : string)
| LocalStorageCleared
| LocalStorageFailed
| SessionStorageCleared
| SessionStorageFailed
| PendingDetected
| FillComplete
| AboutToClick
| AutoFillFailed
| ButtonNotFound
| ButtonClicked
| ButtonFailed
| LoggedOut.

(** What the module does to the outside, in the order it does it. *)
Inductive Event : Type :=
| StorageGet (key : string)
| StorageSet (key : string) (v : string)
| StorageRemove (key : string)
| LocalStorageClear
| SessionStorageClear
| Navigate (url : string)
| Reload
| Timeout (ms : Z)
| WaitFor (selector : string) (timeout : Z)
| Focus (el : Handle)
| SetValue (el : Handle) (v : string)
| Dispatch (el : Handle) (type : string)
| ClickOn (el : Handle)
| Console (level : Level) (msg : Msg).

(** A computation reads and changes the world and leaves a trace. *)
Definition M (A : Type) : Type := World -> A * World * list Event.

Definition ret {A} (a : A) : M A := fun w => (a, w, []).

Definition bind {A B} (m : M A) (k : A -> M B) : M B :=
  fun w =>
    let '(a, w1, t1) := m w in
    let '(b, w2, t2) := k a w1 in
    (b, w2, t1 ++ t2).

Notation "x <- c1 ;; c2" := (bind c1 (fun x => c2))
  (at level 100, c1 at next level, right associativity).
Notation "c1 ;; c2" := (bind c1 (fun _ => c2))
  (at level 100, right associativity).

Definition emit (e : Event) : M unit := fun w => (tt, w, [e]).
Definition get : M World := fun w => (w, w, []).
Definition put (w : World) : M unit := fun _ => (tt, w, []).

Definition setNow (w : World) (t : Z) : World :=
  {| now := t; chromeStorage := chromeStorage w;
     localStorage := localStorage w; sessionStorage := sessionStorage w;
     storageAccess := storageAccess w; href := href w |}.

Definition setChromeStorage (w : World) (m : gmap string StoreVal) : World :=
  {| now := now w; chromeStorage := m;
     localStorage := localStorage w; sessionStorage := sessionStorage w;
     storageAccess := storageAccess w; href := href w |}.

(** [await new Promise((r) => setTimeout(r, ms))] *)
Definition sleep (ms : Z) : M unit :=
  emit (Timeout ms) ;;
  w <- get ;;
  put (setNow w (now w + Z.max 0 ms)).

(** The result of a promise. *)
Inductive Settled (A : Type) : Type :=
| Resolved (a : A)
| Rejected.
Arguments Resolved {A} a.
Arguments Rejected {A}.

(** The result of [querySelector] on a selector text: a [SyntaxError]
    for a text that is no selector, else the first match or [null]. *)
Inductive Query : Type :=
| SyntaxError
| Found (r : option Handle).

Definition PENDING_KEY : string := "env-switch-pending-fill".

Section Host.
(** The browser: its selector engine, the document of the page at each
    instant (in ms; a mutation observer sees each change), and JSON
    restricted to [FillData] ([None]: [JSON.parse] throws). *)
Variable querySelector : Doc -> string -> Query.
Variable docAt : Z -> Doc.
Variable JSON_parse : string -> option FillData.t.
Variable JSON_stringify : FillData.t -> string.

(** The mutation observer of [waitForElement]: the first of the next
    [n] instants after [t] at which the selector resolves.  Timers fire
    at their deadline, and a match at the very instant of the deadline
    comes too late: the observer is consulted at the instants strictly
    between the call and the deadline. *)
Fixpoint observe (selector : string) (t : Z) (n : nat) : option (Z * Handle) :=
  match n with
  | O => None
  | S n' =>
      match querySelector (docAt (t + 1)) selector with
      | Found (Some el) => Some (t + 1, el)%Z
      | _ => observe selector (t + 1) n'
      end
  end.

(** [waitForElement(selector, timeout)].  A throw inside the promise
    executor ([querySelector] on a text that is no selector, [observe]
    on a missing [document.body]) rejects the promise.  The [WaitFor]
    event marks the call. *)
Definition waitForElement (selector : string) (timeout : Z)
  : M (Settled (option Handle)) :=
  emit (WaitFor selector timeout) ;;
  w <- get ;;
  match querySelector (docAt (now w)) selector with
  | SyntaxError => ret Rejected
  | Found (Some existing) => ret (Resolved (Some existing))
  | Found None =>
      match body (docAt (now w)) with
      | None => ret Rejected
      | Some _ =>
          match observe selector (now w) (Z.to_nat (timeout - 1)) with
          | Some (t, el) => put (setNow w t) ;; ret (Resolved (Some el))
          | None =>
              put (setNow w (now w + Z.max 0 timeout)) ;;
              ret (Resolved None)
          end
      end
  end.

Definition isInputTag (doc : Doc) (el : Handle) : bool :=
  match node doc el with
  | Some e => String.eqb (tagName e) "INPUT" || String.eqb (tagName e) "TEXTAREA"
  | None => false
  end.

(** [fillField(field)] *)
Definition fillField (field : FieldConfig.t) : M bool :=
  r <- waitForElement (FieldConfig.selector field) 5000 ;;
  match r with
  | Rejected =>
      emit (Console Error (FieldFailed (FieldConfig.label field))) ;;
      ret false
  | Resolved None =>
      emit (Console Warn (ElementNotFound (FieldConfig.selector field))) ;;
      ret false
  | Resolved (Some el) =>
      w <- get ;;
      input <- (if isInputTag (docAt (now w)) el then ret (Some el)
                else match querySelectorInput (docAt (now w)) el with
                     | Some i => emit (Console Log InnerInputFound) ;; ret (Some i)
                     | None => ret None
                     end) ;;
      match input with
      | None =>
          emit (Console Warn (NotAnInput (FieldConfig.selector field))) ;;
          ret false
      | Some input =>
          emit (Focus input) ;;
          emit (SetValue input (FieldConfig.value field)) ;;
          emit (Dispatch input "input") ;;
          emit (Dispatch input "change") ;;
          emit (Dispatch input "keydown") ;;
          emit (Dispatch input "keyup") ;;
          emit (Console Log (FieldFilled (FieldConfig.label field))) ;;
          ret true
      end
  end.

(** [fillAllFields(fields)] *)
Fixpoint fillAllFields (fields : list FieldConfig.t) : M unit :=
  match fields with
  | [] => ret tt
  | field :: rest =>
      fillField field ;;
      sleep 100 ;;
      fillAllFields rest
  end.

(** [clearLocalStorage()] *)
Definition clearLocalStorage : M unit :=
  emit LocalStorageClear ;;
  w <- get ;;
  if storageAccess w then
    put {| now := now w; chromeStorage := chromeStorage w;
           localStorage := ∅; sessionStorage := sessionStorage w;
           storageAccess := storageAccess w; href := href w |} ;;
    emit (Console Log LocalStorageCleared)
  else emit (Console Error LocalStorageFailed).

(** [clearSessionStorage()] *)
Definition clearSessionStorage : M unit :=
  emit SessionStorageClear ;;
  w <- get ;;
  if storageAccess w then
    put {| now := now w; chromeStorage := chromeStorage w;
           localStorage := localStorage w; sessionStorage := ∅;
           storageAccess := storageAccess w; href := href w |} ;;
    emit (Console Log SessionStorageCleared)
  else emit (Console Error SessionStorageFailed).

(** [chrome.storage.local.set({[key]: v})] *)
Definition storageSet (key v : string) : M unit :=
  emit (StorageSet key v) ;;
  w <- get ;;
  put (setChromeStorage w (<[key := VString v]> (chromeStorage w))).

(** [chrome.storage.local.remove([key])] *)
Definition storageRemove (key : string) : M unit :=
  emit (StorageRemove key) ;;
  w <- get ;;
  put (setChromeStorage w (delete key (chromeStorage w))).

(** [chrome.storage.local.get([key], callback)]: the value handed to
    the callback, [None] for [undefined]. *)
Definition storageGet (key : string) : M (option StoreVal) :=
  emit (StorageGet key) ;;
  w <- get ;;
  ret (chromeStorage w !! key).

(** [window.location.href = url] *)
Definition navigate (url : string) : M unit :=
  emit (Navigate url) ;;
  w <- get ;;
  put {| now := now w; chromeStorage := chromeStorage w;
         localStorage := localStorage w; sessionStorage := sessionStorage w;
         storageAccess := storageAccess w; href := url |}.

(** [switchEnvironment(env)] *)
Definition switchEnvironment (env : EnvConfig.t) : M unit :=
  w <- get ;;
  let fillData :=
    JSON_stringify
      {| FillData.envId := EnvConfig.id env;
         FillData.fields := EnvConfig.fields env;
         FillData.loginButtonSelector := EnvConfig.loginButtonSelector env;
         FillData.timestamp := now w |} in
  clearLocalStorage ;;
  clearSessionStorage ;;
  storageSet PENDING_KEY fillData ;;
  navigate (EnvConfig.loginUrl env).

(** [clickLoginButton(selector)] *)
Definition clickLoginButton (selector : string) : M bool :=
  r <- waitForElement selector 5000 ;;
  match r with
  | Rejected => emit (Console Error ButtonFailed) ;; ret false
  | Resolved None => emit (Console Warn ButtonNotFound) ;; ret false
  | Resolved (Some el) =>
      emit (ClickOn el) ;;
      emit (Console Log ButtonClicked) ;;
      ret true
  end.

(** [checkAndFillPending()] *)
Definition checkAndFillPending : M unit :=
  fillDataStr <- storageGet PENDING_KEY ;;
  match fillDataStr with
  | Some (VString fillDataStr) =>
      match JSON_parse fillDataStr with
      | None => emit (Console Error AutoFillFailed)
      | Some fillData =>
          w <- get ;;
          if (10000 <? now w - FillData.timestamp fillData)%Z then
            storageRemove PENDING_KEY
          else
            emit (Console Log PendingDetected) ;;
            sleep 500 ;;
            fillAllFields (FillData.fields fillData) ;;
            storageRemove PENDING_KEY ;;
            emit (Console Log FillComplete) ;;
            match FillData.loginButtonSelector fillData with
            | Some selector =>
                if Selector.truthy selector then
                  emit (Console Log AboutToClick) ;;
                  sleep 300 ;;
                  clickLoginButton selector ;;
                  ret tt
                else ret tt
            | None => ret tt
            end
      end
  | _ => ret tt
  end.

(** [performLogout()] *)
Definition performLogout : M unit :=
  clearLocalStorage ;;
  clearSessionStorage ;;
  emit (Console Log LoggedOut) ;;
  emit Reload.

End Host.

(** A step that leaves everything but the clock alone and does not
    turn the clock back. *)
Definition onlyTime (w w' : World) : Prop :=
  (now w <= now w')%Z /\ w' = setNow w (now w').

(** The three parts of a run. *)
Definition result {A} (r : A * World * list Event) : A := fst (fst r).
Definition after {A} (r : A * World * list Event) : World := snd (fst r).
Definition trace {A} (r : A * World * list Event) : list Event := snd r.

(** Where an event stands in a trace. *)
Definition precedes (a b : Event) (t : list Event) : Prop :=
  exists t1 t2 t3, t = t1 ++ a :: t2 ++ b :: t3.

(** Events by kind. *)
Definition isWaitFor (e : Event) : bool :=
  match e with WaitFor _ _ => true | _ => false end.
Definition isTimeout (e : Event) : bool :=
  match e with Timeout _ => true | _ => false end.
Definition isClick (e : Event) : bool :=
  match e with ClickOn _ => true | _ => false end.
Definition isRemove (e : Event) : bool :=
  match e with StorageRemove _ => true | _ => false end.
(** What [fillField] does to a control. *)
Definition isFill (e : Event) : bool :=
  match e with
  | Focus _ | SetValue _ _ | Dispatch _ _ => true
  | _ => false
  end.

(** An event that is no wait, no pause, no click and no removal. *)
Definition calm (e : Event) : bool :=
  negb (isWaitFor e) && negb (isTimeout e)
  && negb (isClick e) && negb (isRemove e).

(** The trace of [fillAll] in the specification's words: for each field
    in turn one attempt, which begins by waiting for the field's
    selector and neither waits again nor pauses, then a pause of
    100 ms. *)
Inductive Sequenced : list FieldConfig.t -> list Event -> Prop :=
| Sequenced_nil : Sequenced [] []
| Sequenced_cons (field : FieldConfig.t) (rest : list FieldConfig.t)
    (attempt t : list Event) :
    forallb calm attempt = true ->
    Sequenced rest t ->
    Sequenced (field :: rest)
      (WaitFor (FieldConfig.selector field) 5000 :: attempt ++ Timeout 100 :: t).

End Switcher.

(* ===================================================================== *)
(** ** src/storage.ts: the configuration store *)
(* ===================================================================== *)

Module Config.

Record PanelPosition : Type := mkPosition { x : Z; y : Z }.

Record AppConfig : Type := mkConfig
  { environments : list EnvConfig.t;
    currentEnvId : option string;
    panelPosition : option PanelPosition;
    allowedDomains : option (list string) }.

(** The literal [defaultConfig] of the module. *)
Definition defaultConfig : AppConfig :=
  {| environments := []; currentEnvId := None; panelPosition := None;
     allowedDomains := Some [] |}.

(** What the functions of the module work on: the entry under
    [STORAGE_KEY] in [chrome.storage.local] ([None]: no entry) and the
    module's [defaultConfig] object as it is now.  The object is
    mutable: [loadConfig] hands it out itself when nothing is stored,
    and the callers write into what they are handed. *)
Record Store : Type := mkStore
  { stored : option AppConfig;
    defaultObject : AppConfig }.

Definition empty : Store :=
  {| stored := None; defaultObject := defaultConfig |}.

(** The object a caller holds after [loadConfig]: a copy made by the
    store, or the module's default object. *)
Inductive ConfigRef : Type :=
| Copy (config : AppConfig)
| TheDefault.

(** [loadConfig()] *)
Definition loadConfig (st : Store) : ConfigRef :=
  match stored st with
  | Some config => Copy config
  | None => TheDefault
  end.

(** The content of the object behind a reference. *)
Definition read (st : Store) (r : ConfigRef) : AppConfig :=
  match r with
  | Copy config => config
  | TheDefault => defaultObject st
  end.

(** Assignment to properties of the object behind a reference. *)
Definition write (st : Store) (r : ConfigRef) (config : AppConfig)
  : Store * ConfigRef :=
  match r with
  | Copy _ => (st, Copy config)
  | TheDefault =>
      ({| stored := stored st; defaultObject := config |}, TheDefault)
  end.

(** [saveConfig(config)]: the store keeps a copy. *)
Definition saveConfig (st : Store) (config : AppConfig) : Store :=
  {| stored := Some config; defaultObject := defaultObject st |}.

(** [Omit<EnvConfig, "id">] *)
Record Draft : Type := mkDraft
  { name : string; loginUrl : string;
    fields : list FieldConfig.t; loginButtonSelector : option string }.

Definition withEnvironments (c : AppConfig) (envs : list EnvConfig.t) : AppConfig :=
  {| environments := envs; currentEnvId := currentEnvId c;
     panelPosition := panelPosition c; allowedDomains := allowedDomains c |}.

Definition withCurrentEnvId (c : AppConfig) (i : option string) : AppConfig :=
  {| environments := environments c; currentEnvId := i;
     panelPosition := panelPosition c; allowedDomains := allowedDomains c |}.

Definition withPanelPosition (c : AppConfig) (p : option PanelPosition) : AppConfig :=
  {| environments := environments c; currentEnvId := currentEnvId c;
     panelPosition := p; allowedDomains := allowedDomains c |}.

Definition withAllowedDomains (c : AppConfig) (d : option (list string)) : AppConfig :=
  {| environments := environments c; currentEnvId := currentEnvId c;
     panelPosition := panelPosition c; allowedDomains := d |}.

(** [saveAllowedDomains(domains)] *)
Definition saveAllowedDomains (st : Store) (domains : list string) : Store :=
  let config := loadConfig st in
  let (st, config) :=
    write st config (withAllowedDomains (read st config) (Some domains)) in
  saveConfig st (read st config).

(** [addEnv(env)]; [newId] is what [generateId()] returns. *)
Definition addEnv (st : Store) (env : Draft) (newId : string)
  : Store * EnvConfig.t :=
  let config := loadConfig st in
  let newEnv :=
    {| EnvConfig.id := newId; EnvConfig.name := name env;
       EnvConfig.loginUrl := loginUrl env; EnvConfig.fields := fields env;
       EnvConfig.loginButtonSelector := loginButtonSelector env |} in
  let (st, config) :=
    write st config
      (withEnvironments (read st config)
         (environments (read st config) ++ [newEnv])) in
  (saveConfig st (read st config), newEnv).

(** [xs.findIndex(p)], [None] for [-1]. *)
Fixpoint findIndex {A} (p : A -> bool) (xs : list A) : option nat :=
  match xs with
  | [] => None
  | x :: rest => if p x then Some 0%nat else S <$> findIndex p rest
  end.

(** [updateEnv(env)] *)
Definition updateEnv (st : Store) (env : EnvConfig.t) : Store :=
  let config := loadConfig st in
  match findIndex (fun e => String.eqb (EnvConfig.id e) (EnvConfig.id env))
          (environments (read st config)) with
  | Some index =>
      let (st, config) :=
        write st config
          (withEnvironments (read st config)
             (<[index := env]> (environments (read st config)))) in
      saveConfig st (read st config)
  | None => st
  end.

(** [deleteEnv(envId)] *)
Definition deleteEnv (st : Store) (envId : string) : Store :=
  let config := loadConfig st in
  let (st, config) :=
    write st config
      (withEnvironments (read st config)
         (List.filter (fun e => negb (String.eqb (EnvConfig.id e) envId))
            (environments (read st config)))) in
  let (st, config) :=
    match currentEnvId (read st config) with
    | Some cur =>
        if String.eqb cur envId
        then write st config (withCurrentEnvId (read st config) None)
        else (st, config)
    | None => (st, config)
    end in
  saveConfig st (read st config).

(** [setCurrentEnv(envId)] *)
Definition setCurrentEnv (st : Store) (envId : option string) : Store :=
  let config := loadConfig st in
  let (st, config) :=
    write st config (withCurrentEnvId (read st config) envId) in
  saveConfig st (read st config).

(** [savePanelPosition(x, y)] *)
Definition savePanelPosition (st : Store) (x y : Z) : Store :=
  let config := loadConfig st in
  let (st, config) :=
    write st config
      (withPanelPosition (read st config) (Some {| x := x; y := y |})) in
  saveConfig st (read st config).

(** What [await loadConfig()] shows a reader. *)
Definition current (st : Store) : AppConfig := read st (loadConfig st).

Definition ids (c : AppConfig) : list string :=
  map EnvConfig.id (environments c).

(** The store after a function that loaded, changed what it was handed
    into [c] and saved: the entry is [c], and so is the default object
    when it was the one handed out. *)
Definition rewritten (st : Store) (c : AppConfig) : Store :=
  {| stored := Some c;
     defaultObject := match stored st with
                      | Some _ => defaultObject st
                      | None => c
                      end |}.

(** A configuration without the environments of some id. *)
Definition without (envId : string) (c : AppConfig) : AppConfig :=
  {| environments :=
       List.filter (fun e => negb (String.eqb (EnvConfig.id e) envId))
         (environments c);
     currentEnvId := match currentEnvId c with
                     | Some cur => if String.eqb cur envId then None else Some cur
                     | None => None
                     end;
     panelPosition := panelPosition c;
     allowedDomains := allowedDomains c |}.

(** The calls a user of the module can make. *)
Inductive Op : Type :=
| AddEnv (env : Draft) (generated : string)
| UpdateEnv (env : EnvConfig.t)
| DeleteEnv (envId : string)
| SetCurrentEnv (envId : option string)
| SavePanelPosition (x y : Z)
| SaveAllowedDomains (domains : list string).

Definition perform (st : Store) (op : Op) : Store :=
  match op with
  | AddEnv env generated => fst (addEnv st env generated)
  | UpdateEnv env => updateEnv st env
  | DeleteEnv envId => deleteEnv st envId
  | SetCurrentEnv envId => setCurrentEnv st envId
  | SavePanelPosition x y => savePanelPosition st x y
  | SaveAllowedDomains domains => saveAllowedDomains st domains
  end.

(** An id handed out by [generateId()] that no environment has yet. *)
Definition freshFor (st : Store) (op : Op) : Prop :=
  match op with
  | AddEnv _ generated => ~ In generated (ids (current st))
  | _ => True
  end.

End Config.

(* ===================================================================== *)
(** ** The popup: the allowed domains text *)
(* ===================================================================== *)

Module Popup.
Import JsString.


(** [s.split(sep)] for a separator of one character. *)
Fixpoint split (s : string) (sep : ascii) : list string :=
  match s with
  | EmptyString => [EmptyString]
  | String c r =>
      if Ascii.eqb c sep then EmptyString :: split r sep
      else match split r sep with
           | x :: xs => String c x :: xs
           | [] => [String c EmptyString]
           end
  end.







End Popup.

(* ===================================================================== *)
(** ** content/selector.ts: the exports that take a selector text *)
(* ===================================================================== *)

Module Preview.
Import Dom Selector.

Section Engine.
Variable querySelector : Doc -> string -> Switcher.Query.

(** [testSelector(selector)] *)
Definition testSelector (doc : Doc) (selector : string) : bool :=
  match querySelector doc selector with
  | Switcher.Found (Some _) => true
  | Switcher.Found None => false
  | Switcher.SyntaxError => false
  end.

(** [highlightElement(selector)]: the state after the call and the
    element whose highlight the timer of 1500 ms will remove. *)
Definition highlightElement (doc : Doc) (st : State) (selector : string)
  : State * option Handle :=
  match querySelector doc selector with
  | Switcher.Found (Some el) => (addHighlight st el, Some el)
  | Switcher.Found None => (st, None)
  | Switcher.SyntaxError => (st, None)
  end.

(** The timer of [highlightElement] firing. *)
Definition previewTimer (st : State) (armed : option Handle) : State :=
  match armed with
  | Some el => removeHighlight st el
  | None => st
  end.
End Engine.

(** The links the fallback path is made of. *)
Definition pathLink (c : Compound) : bool :=
  match c with
  | ById _ | ByTag _ _ => true
  | ByAttr _ _ _ | ByClasses _ _ => false
  end.

(** Runs of the picker in which nobody calls [highlightElement]. *)
Definition pickerAction (a : Action) : bool :=
  match a with
  | Preview _ | PreviewEnd _ => false
  | _ => true
  end.

(** With respect to the page as it was loaded: an element the picker
    has not touched, and an element it has highlighted. *)
Definition untouched (st0 st : State) (el : Handle) : Prop :=
  originalStyles st !! el = None /\ styleOf st el = styleOf st0 el.

Definition lit (st0 st : State) (el : Handle) : Prop :=
  originalStyles st !! el = Some (styleOf st0 el)
  /\ styleOf st el = HIGHLIGHT_STYLE.

Definition allClean (st0 st : State) : Prop :=
  forall el, untouched st0 st el.

(** The element under the cursor is highlighted, every other element is
    as it was. *)
Definition tracked (st0 st : State) : Prop :=
  forall el,
    if bool_decide (currentHighlighted st = Some el)
    then lit st0 st el else untouched st0 st el.

End Preview.

(* ===================================================================== *)
(** ** content/views/App.tsx: the panel *)
(* ===================================================================== *)

Module Panel.
Import JsString.

(** [handleDragging(e)]: the position the panel is given;
    [dragOffset] is what [handleDragStart] recorded. *)
Definition handleDragging (clientX clientY : Z) (dragOffset : Z * Z)
    (innerWidth innerHeight : Z) : Config.PanelPosition :=
  let x := (clientX - fst dragOffset)%Z in
  let y := (clientY - snd dragOffset)%Z in
  let clampedX := Z.min (Z.max 8 x) (innerWidth - 60) in
  let clampedY := Z.min (Z.max 8 y) (innerHeight - 60) in
  {| Config.x := clampedX; Config.y := clampedY |}.

(** [EditableEnv]: an environment being edited, without id while it is
    new. *)
Record EditableEnv : Type := mkEditable
  { id : option string; name : string; loginUrl : string;
    fields : list FieldConfig.t; loginButtonSelector : option string }.

(** [Partial<FieldConfig>] *)
Record FieldPartial : Type := mkPartial
  { newId : option string; newSelector : option string;
    newValue : option string; newLabel : option string }.

(** [{ ...field, ...partial }] *)
Definition merge (field : FieldConfig.t) (partial : FieldPartial) : FieldConfig.t :=
  {| FieldConfig.id := default (FieldConfig.id field) (newId partial);
     FieldConfig.selector := default (FieldConfig.selector field) (newSelector partial);
     FieldConfig.value := default (FieldConfig.value field) (newValue partial);
     FieldConfig.label := default (FieldConfig.label field) (newLabel partial) |}.

Definition withFields (e : EditableEnv) (fs : list FieldConfig.t) : EditableEnv :=
  {| id := id e; name := name e; loginUrl := loginUrl e; fields := fs;
     loginButtonSelector := loginButtonSelector e |}.

(** [updateEditingField(fieldId, partial)], on the state [editingEnv]. *)
Definition updateEditingField (prev : option EditableEnv) (fieldId : string)
    (partial : FieldPartial) : option EditableEnv :=
  match prev with
  | None => None
  | Some prev =>
      Some (withFields prev
              (map (fun field =>
                      if String.eqb (FieldConfig.id field) fieldId
                      then merge field partial else field)
                   (fields prev)))
  end.

(** The callback [handleSelectField(fieldId)] gives to [startSelecting]. *)
Definition onFieldSelected (prev : option EditableEnv) (fieldId selector : string)
  : option EditableEnv :=
  updateEditingField prev fieldId
    {| newId := None; newSelector := Some selector;
       newValue := None; newLabel := None |}.

(** The callback [handleSelectLoginButton()] gives to [startSelecting]. *)
Definition onLoginButtonSelected (prev : option EditableEnv) (selector : string)
  : option EditableEnv :=
  match prev with
  | None => None
  | Some prev =>
      Some {| id := id prev; name := name prev; loginUrl := loginUrl prev;
              fields := fields prev; loginButtonSelector := Some selector |}
  end.

(** [handleAddField()]; [generated] is what [generateId()] returns. *)
Definition handleAddField (prev : option EditableEnv) (generated : string)
  : option EditableEnv :=
  match prev with
  | None => None
  | Some prev =>
      Some (withFields prev
              (fields prev ++
               [ {| FieldConfig.id := generated; FieldConfig.selector := "";
                    FieldConfig.value := ""; FieldConfig.label := "新字段" |} ]))
  end.

(** [handleRemoveField(fieldId)] *)
Definition handleRemoveField (prev : option EditableEnv) (fieldId : string)
  : option EditableEnv :=
  match prev with
  | None => None
  | Some prev =>
      Some (withFields prev
              (List.filter
                 (fun field => negb (String.eqb (FieldConfig.id field) fieldId))
                 (fields prev)))
  end.

(** [startEditEnv(env)] *)
Definition startEditEnv (env : EnvConfig.t) : EditableEnv :=
  {| id := Some (EnvConfig.id env); name := EnvConfig.name env;
     loginUrl := EnvConfig.loginUrl env; fields := EnvConfig.fields env;
     loginButtonSelector :=
       Some (default "" (EnvConfig.loginButtonSelector env)) |}.






(** [handleDeleteEnv(envId)] once confirmed; [config] is the
    component's state. *)
Definition handleDeleteEnv (st : Config.Store) (config : Config.AppConfig)
    (envId : string) : Config.Store :=
  let st := Config.deleteEnv st envId in
  match Config.currentEnvId config with
  | Some cur =>
      if String.eqb cur envId then Config.setCurrentEnv st None else st
  | None => st
  end.

Inductive SwitchResult : Type :=
| Ignored
| Alerted
| Switched (st : Config.Store) (leave : Switcher.M unit).

Section Browser.
Variable querySelector : Dom.Doc -> string -> Switcher.Query.
Variable docAt : Z -> Dom.Doc.
Variable JSON_parse : string -> option FillData.t.
Variable JSON_stringify : FillData.t -> string.

(** [handleSwitchEnv(envId)]; [config] is the component's state. *)
Definition handleSwitchEnv (st : Config.Store) (config : Config.AppConfig)
    (envId : string) : SwitchResult :=
  match List.find (fun item => String.eqb (EnvConfig.id item) envId)
          (Config.environments config) with
  | None => Ignored
  | Some env =>
      if negb (Selector.truthy (EnvConfig.loginUrl env)) then Alerted
      else Switched (Config.setCurrentEnv st (Some envId))
                    (Switcher.switchEnvironment JSON_stringify env)
  end.

End Browser.

End Panel.

(* ===================================================================== *)
(** ** What a run leaves alone *)
(* ===================================================================== *)

Module Frame.
Import Switcher.

(** The page's own storages and address are as before. *)
Definition keepsPage (w w' : World) : Prop :=
  localStorage w' = localStorage w
  /\ sessionStorage w' = sessionStorage w
  /\ href w' = href w.

(** Every entry of [chrome.storage.local] but the pending one is as
    before. *)
Definition keepsStore (w w' : World) : Prop :=
  forall k, k <> PENDING_KEY -> chromeStorage w' !! k = chromeStorage w !! k.

End Frame.

(* ===================================================================== *)
(** ** Sample pages *)
(* ===================================================================== *)

Module Sample.
Import Dom.

(** A login page: the extension's panel, a form whose first input sits
    in a wrapper, two password inputs without id, some text and the submit button. *)
Definition loginPage : Doc :=
  Elem "HTML" "" [] [] [
    Elem "HEAD" "" [] [] [];
    Elem "BODY" "" [] [] [
      Elem "DIV" "crxjs-app" [] [] [ Elem "BUTTON" "" [] [] [] ];
      Elem "FORM" "" ["css-1x2"; "login"] [] [
        Elem "DIV" "" ["wrapper"] [] [
          Elem "INPUT" "user" [] [("name", "user")] [] ];
        Elem "INPUT" "" [] [("type", "password")] [];
        Elem "INPUT" "" ["_abc1"] [("type", "password")] [];
        Elem "DIV" "" [] [] [
          Elem "SPAN" "" [] [] []; Elem "SPAN" "" [] [] [];
          Elem "P" "" [] [] [] ];
        Elem "BUTTON" "submit" [] [] [] ];
      Elem "SPAN" "a b" [] [] [] ] ].

Definition theUserInput : Handle := [0; 0; 1; 1].
Definition thePassword : Handle := [1; 1; 1].
Definition theParagraph : Handle := [2; 3; 1; 1].
Definition thePanelButton : Handle := [0; 0; 1].
Definition theSubmit : Handle := [4; 1; 1].

(** A page without any form control. *)
Definition plainPage : Doc :=
  Elem "HTML" "" [] [] [
    Elem "HEAD" "" [] [] [];
    Elem "BODY" "" [] [] [ Elem "DIV" "" [] [] [ Elem "SPAN" "" [] [] [] ] ] ].

Definition theSpan : Handle := [0; 0; 1].

(** A selector engine that knows id selectors only. *)
Definition idQuery (doc : Doc) (selector : string) : Switcher.Query :=
  match selector with
  | String "#" ident =>
      if Selector.truthy ident then
        Switcher.Found
          (List.find (fun h => match node doc h with
                               | Some e => String.eqb (id e) ident
                               | None => false
                               end) (allElements doc))
      else Switcher.SyntaxError
  | _ => Switcher.SyntaxError
  end.

(** A page that is [plainPage] until the login form is rendered at
    instant 1200. *)
Definition rendering (t : Z) : Doc :=
  if (t <? 1200)%Z then plainPage else loginPage.

Definition userField : FieldConfig.t :=
  {| FieldConfig.id := "f1"; FieldConfig.selector := "#user";
     FieldConfig.value := "alice"; FieldConfig.label := "user" |}.


Definition brokenField : FieldConfig.t :=
  {| FieldConfig.id := "f3"; FieldConfig.selector := "[";
     FieldConfig.value := "x"; FieldConfig.label := "broken" |}.

Definition staging : EnvConfig.t :=
  {| EnvConfig.id := "env1"; EnvConfig.name := "staging";
     EnvConfig.loginUrl := "https://staging.example.com/login";
     EnvConfig.fields := [userField];
     EnvConfig.loginButtonSelector := Some "#submit" |}.

(** The payload staged for [staging] at instant 0. *)
Definition payload : FillData.t :=
  {| FillData.envId := "env1"; FillData.fields := [userField];
     FillData.loginButtonSelector := Some "#submit";
     FillData.timestamp := 0 |}.

(** JSON cut down to one text: ["<payload>"] stands for the text of
    [payload]; nothing else parses. *)
Definition stringify (d : FillData.t) : string := "<payload>".
Definition parse (text : string) : option FillData.t :=
  if String.eqb text "<payload>" then Some payload else None.

(** The destination page at instant [t] with [text] staged. *)
Definition arrived (t : Z) (text : string) : Switcher.World :=
  {| Switcher.now := t;
     Switcher.chromeStorage := {[ Switcher.PENDING_KEY := Switcher.VString text ]};
     Switcher.localStorage := ∅;
     Switcher.sessionStorage := ∅;
     Switcher.storageAccess := true;
     Switcher.href := "https://staging.example.com/login" |}.

End Sample.

(* ===================================================================== *)
(** * Properties *)
(* ===================================================================== *)

(** ** Strings *)

Section StringFacts.
Import JsString.














End StringFacts.

(** ** DomainMatcher *)

Section DomainMatcher.
Import JsString Storage.




End DomainMatcher.

(** ** Highlight and picker *)

Section Picker.
Import JsString Dom Selector.

Lemma style_eta (s : Style) :
  {| outline := outline s; outlineOffset := outlineOffset s;
     backgroundColor := backgroundColor s |} = s.
Proof. by destruct s. Qed.

Lemma removeHighlight_addHighlight_style (st : State) (el : Handle) :
  styleOf (removeHighlight (addHighlight st el) el) el = styleOf st el.
Proof.
  unfold removeHighlight, addHighlight, styleOf; simpl.
  rewrite lookup_insert_eq; simpl.
  by rewrite lookup_insert_eq, style_eta.
Qed.

(** C10. [addHighlight] followed by [removeHighlight] gives the element
    its former inline [outline], [outline-offset] and [background-color]
    back and leaves no snapshot of it; other elements keep their style
    and their snapshot.  [removeHighlight] on an element without
    snapshot changes nothing. *)
Theorem highlight_roundtrip :
  (forall (st : State) (el : Handle),
      let st' := removeHighlight (addHighlight st el) el in
      outline (styleOf st' el) = outline (styleOf st el)
      /\ outlineOffset (styleOf st' el) = outlineOffset (styleOf st el)
      /\ backgroundColor (styleOf st' el) = backgroundColor (styleOf st el)
      /\ originalStyles st' !! el = None
      /\ forall other, other <> el ->
           styleOf st' other = styleOf st other
           /\ originalStyles st' !! other = originalStyles st !! other)
  /\ (forall (st : State) (el : Handle),
         originalStyles st !! el = None -> removeHighlight st el = st).
Proof.
  split.
  - intros st el st'.
    pose proof (removeHighlight_addHighlight_style st el) as Hs.
    fold st' in Hs. rewrite Hs. repeat split; try done.
    + subst st'. unfold removeHighlight, addHighlight; simpl.
      rewrite lookup_insert_eq; simpl. apply lookup_delete_eq.
    + subst st'. unfold removeHighlight, addHighlight, styleOf; simpl.
      rewrite lookup_insert_eq; simpl. by rewrite !lookup_insert_ne.
    + subst st'. unfold removeHighlight, addHighlight; simpl.
      rewrite lookup_insert_eq; simpl.
      rewrite lookup_delete_ne by done. by rewrite lookup_insert_ne.
  - intros st el H. unfold removeHighlight. by rewrite H.
Qed.

Lemma highlight_roundtrip_witness :
  removeHighlight (initial ∅ "") [0; 1] = initial ∅ "".
Proof. apply (proj2 highlight_roundtrip). reflexivity. Defined.

(** *** The state machine *)

Lemma filter_twice {A} (f g : A -> bool) (l : list A) :
  List.filter f (List.filter g l) = List.filter (fun x => g x && f x) l.
Proof.
  induction l as [|x l IH]; simpl; [done |].
  destruct (g x); simpl; [destruct (f x); by rewrite IH | done].
Qed.



Lemma stopSelecting_fields (st : State) :
  isSelecting (stopSelecting st) = false
  /\ onSelectCallback (stopSelecting st) = None
  /\ currentHighlighted (stopSelecting st) = None
  /\ listeners (stopSelecting st) = strip (listeners st)
  /\ bodyCursor (stopSelecting st) = "".
Proof.
  unfold stopSelecting; simpl.
  destruct (currentHighlighted st) as [cur|]; simpl; [| done].
  unfold removeHighlight; simpl.
  by destruct (originalStyles st !! cur).
Qed.

Lemma stopSelecting_idle (st : State) :
  consistent st -> idle (stopSelecting st).
Proof.
  intros Hc. destruct (stopSelecting_fields st) as (H1 & H2 & H3 & H4 & _).
  repeat split; try done. rewrite H4.
  destruct Hc as [(_ & _ & _ & ->) | (_ & _ & ->)]; reflexivity.
Qed.



Lemma startSelecting_from_idle (st : State) (cb : SelectionCallback) :
  idle st ->
  startSelecting st cb =
    {| isSelecting := true; currentHighlighted := None;
       onSelectCallback := Some cb; originalStyles := originalStyles st;
       inlineStyles := inlineStyles st; listeners := sessionListeners;
       bodyCursor := "crosshair" |}.
Proof.
  intros (H1 & H2 & H3 & H4). unfold startSelecting. rewrite H1; simpl.
  by rewrite H3, H4.
Qed.

Lemma startSelecting_restarts (st : State) (cb : SelectionCallback) :
  isSelecting st = true ->
  startSelecting st cb = startSelecting (stopSelecting st) cb.
Proof.
  intros Hs. unfold startSelecting at 1 2. rewrite Hs.
  by destruct (stopSelecting_fields st) as (-> & _).
Qed.

Lemma startSelecting_selecting (st : State) (cb : SelectionCallback) :
  consistent st -> selecting (startSelecting st cb).
Proof.
  intros Hc.
  assert (Hi : exists st', idle st' /\ startSelecting st cb = startSelecting st' cb).
  { destruct Hc as [Hi | (Hs & Hcb & Hl)].
    - by exists st.
    - exists (stopSelecting st). split.
      + apply stopSelecting_idle. right. done.
      + by apply startSelecting_restarts. }
  destruct Hi as (st' & Hi & ->).
  rewrite (startSelecting_from_idle _ _ Hi). by repeat split.
Qed.

Lemma joinOutcome_quiet (o : Outcome) : joinOutcome quiet o = o.
Proof. by destruct o. Qed.

(** With the session's listeners registered, an event runs the one
    handler of its type. *)
Lemma dispatch_selecting (doc : Doc) (st : State) (ev : DomEvent) :
  listeners st = sessionListeners ->
  dispatch doc st ev =
    match ev with
    | EvMouseMove t => (handleMouseMove doc st t, quiet)
    | EvClick t => handleClick doc st t
    | EvKeyDown k => (handleKeyDown st k, quiet)
    end.
Proof.
  intros Hl. unfold dispatch. rewrite Hl.
  destruct ev as [t | t | k]; simpl; rewrite ?Hl; simpl.
  - done.
  - destruct (handleClick doc st t) as [st' o]. by rewrite joinOutcome_quiet.
  - done.
Qed.

Lemma dispatch_idle (doc : Doc) (st : State) (ev : DomEvent) :
  listeners st = [] -> dispatch doc st ev = (st, quiet).
Proof. intros Hl. unfold dispatch. by rewrite Hl. Qed.

Lemma addHighlight_consistent (st : State) (el : Handle) :
  consistent st -> consistent (addHighlight st el).
Proof. intros [H | H]; [left | right]; exact H. Qed.

Lemma removeHighlight_consistent (st : State) (el : Handle) :
  consistent st -> consistent (removeHighlight st el).
Proof.
  intros Hc. unfold removeHighlight.
  destruct (originalStyles st !! el); [| done].
  destruct Hc as [H | H]; [left | right]; exact H.
Qed.

Lemma handleMouseMove_selecting (doc : Doc) (st : State) (t : Handle) :
  selecting st -> selecting (handleMouseMove doc st t).
Proof.
  intros Hs. unfold handleMouseMove.
  destruct (inOwnUi doc t); [done |].
  assert (Hs1 : selecting
            match currentHighlighted st with
            | Some cur => if negb (bool_decide (cur = t))
                          then removeHighlight st cur else st
            | None => st
            end).
  { destruct (currentHighlighted st) as [cur|]; [| done].
    destruct (negb _); [| done].
    unfold removeHighlight. by destruct (originalStyles st !! cur). }
  destruct (negb _); [| done]. exact Hs1.
Qed.

Lemma step_consistent (doc : Doc) (st : State) (a : Action) :
  consistent st -> consistent (step doc st a).
Proof.
  intros Hc. destruct a as [cb | | ev | el | el]; simpl.
  - right. by apply startSelecting_selecting.
  - left. by apply stopSelecting_idle.
  - destruct Hc as [Hi | Hs].
    + rewrite dispatch_idle by apply Hi. by left.
    + rewrite dispatch_selecting by apply Hs.
      destruct ev as [t | t | k]; simpl.
      * right. by apply handleMouseMove_selecting.
      * unfold handleClick. destruct (inOwnUi doc t); simpl; [by right |].
        left. apply stopSelecting_idle. by right.
      * unfold handleKeyDown. destruct (String.eqb k "Escape"); [| by right].
        left. apply stopSelecting_idle. by right.
  - by apply addHighlight_consistent.
  - by apply removeHighlight_consistent.
Qed.

Lemma run_consistent (doc : Doc) (acts : list Action) (st : State) :
  consistent st -> consistent (run doc st acts).
Proof.
  revert st. induction acts as [|a acts IH]; intros st Hc; simpl; [done |].
  apply IH. by apply step_consistent.
Qed.

Lemma initial_consistent (styles : gmap Handle Style) (cursor : string) :
  consistent (initial styles cursor).
Proof. left. by repeat split. Qed.



End Picker.

(** ** The document *)

Section DomFacts.
Import JsString Dom.











End DomFacts.

(** ** SelectorSynthesizer *)

Section Synthesizer.
Import JsString Dom Selector.

Lemma truthy_true (s : string) : truthy s = true <-> s <> "".
Proof.
  unfold truthy. rewrite negb_true_iff. split.
  - intros H ->. by rewrite String.eqb_refl in H.
  - intros H. by apply String.eqb_neq.
Qed.

Lemma tagSegment_pathSegment (doc : Doc) (h : Handle) (e : Element) :
  pathSegment doc h e = tagSegment doc h e.
Proof.
  unfold pathSegment, tagSegment, sameTagSiblings, position.
  destruct h as [|i parent]; simpl; [done |].
  destruct (node doc parent) as [p|]; simpl; [| done].
  replace (i + 1)%nat with (S i) by lia.
  set (n := length _). by destruct n as [|[|n]].
Qed.

(** The loop of the fallback builds the chain of the specification,
    root first, in front of what it was given. *)
Lemma walk_fallbackChain (doc : Doc) (current : Handle) :
  forall path, walk doc current path = rev (fallbackChain doc current) ++ path.
Proof.
  unfold fallbackChain.
  induction current as [|i parent IH]; intros path;
    cbn [walk selfAndAncestors untilBody anchored];
    destruct (bool_decide (body doc = Some _)); try done;
    cbn [anchored].
  - destruct (node doc []) as [e|]; [| done].
    destruct (truthy (id e)); [done |].
    by rewrite tagSegment_pathSegment.
  - destruct (node doc (i :: parent)) as [e|]; [| done].
    destruct (truthy (id e)); [done |].
    rewrite IH, tagSegment_pathSegment. cbn [rev]. by rewrite <- app_assoc.
Qed.








(** *** Texts are not empty *)






Lemma render_single (c : Compound) : render [c] = renderCompound c.
Proof. reflexivity. Qed.







(** C4, amended. In the fallback branch the selector is the chain of
    the specification read from the top: tag or [tag:nth-child(n)]
    links from the element up to below [document.body], numbered only
    among several same-tag siblings, cut at the first ancestor with an
    id, which gives the [#id] anchor.  The links are joined by the child
    combinator [" > "]. *)
Theorem fallback_path (doc : Doc) (el : Handle) (e : Element) :
  node doc el = Some e ->
  noCandidate doc e ->
  generateSelectorForElement doc el = rev (fallbackChain doc el)
  /\ render (generateSelectorForElement doc el)
     = join " > " (map renderCompound (rev (fallbackChain doc el))).
Proof.
  intros Hn (H1 & H2 & H3 & H4 & H5).
  assert (Hg : generateSelectorForElement doc el = rev (fallbackChain doc el)).
  { unfold generateSelectorForElement. rewrite Hn, H1, H2, H3, H4, H5.
    by rewrite walk_fallbackChain, app_nil_r. }
  split; [done |]. by rewrite Hg.
Qed.

Lemma fallback_path_witness :
  render (generateSelectorForElement Sample.loginPage Sample.theParagraph)
  = "form > div:nth-child(4) > p".
Proof.
  refine (eq_trans (proj2
    (fallback_path Sample.loginPage Sample.theParagraph
       (Elem "P" "" [] [] []) _ _)) _).
  - reflexivity.
  - by repeat split.
  - reflexivity.
Defined.

(** C4 as claimed fails: the links are joined by [" > "], not by a
    space. *)
Lemma fallback_path_counterexample :
  noCandidate Sample.plainPage (Elem "SPAN" "" [] [] [])
  /\ node Sample.plainPage Sample.theSpan = Some (Elem "SPAN" "" [] [] [])
  /\ render (generateSelectorForElement Sample.plainPage Sample.theSpan)
     = "div > span"
  /\ render (generateSelectorForElement Sample.plainPage Sample.theSpan)
     <> "div span".
Proof. by repeat split. Qed.

End Synthesizer.

(** ** ElementWaiter, FieldFiller, NavigationHandoffProtocol *)

Section Handoff.
Import Dom Switcher.

Variable querySelector : Doc -> string -> Query.
Variable docAt : Z -> Doc.
Variable JSON_parse : string -> option FillData.t.
Local Abbreviation observe := (observe querySelector docAt).
Local Abbreviation waitForElement := (waitForElement querySelector docAt).
Local Abbreviation fillField := (fillField querySelector docAt).
Local Abbreviation fillAllFields := (fillAllFields querySelector docAt).
Local Abbreviation clickLoginButton := (clickLoginButton querySelector docAt).
Local Abbreviation checkAndFillPending :=
  (checkAndFillPending querySelector docAt JSON_parse).
(** Unfolding of the monad's operations. *)
Ltac run :=
  cbv [bind emit get put ret sleep result after trace];
  cbn [fst snd app].

Lemma onlyTime_refl (w : World) : onlyTime w w.
Proof. split; [lia | by destruct w]. Qed.

Lemma onlyTime_trans (w1 w2 w3 : World) :
  onlyTime w1 w2 -> onlyTime w2 w3 -> onlyTime w1 w3.
Proof.
  intros [H1 E1] [H2 E2]. split; [lia |].
  rewrite E2 at 1. rewrite E1. reflexivity.
Qed.

Lemma onlyTime_setNow (w : World) (t : Z) : (now w <= t)%Z -> onlyTime w (setNow w t).
Proof. intros H. by split. Qed.

(** *** The observer *)

Lemma observe_Some (selector : string) (n : nat) :
  forall t t' el,
    observe selector t n = Some (t', el) ->
    (t < t' <= t + Z.of_nat n)%Z
    /\ querySelector (docAt t') selector = Found (Some el).
Proof.
  induction n as [|n IH]; intros t t' el; cbn [Switcher.observe]; [done |].
  destruct (querySelector (docAt (t + 1)) selector) as [|[e|]] eqn:Hq.
  - intros H. destruct (IH _ _ _ H). split; [lia | done].
  - intros [= <- <-]. split; [lia | done].
  - intros H. destruct (IH _ _ _ H). split; [lia | done].
Qed.


(** *** [waitForElement] *)

Lemma waitForElement_eq (selector : string) (timeout : Z) (w : World) :
  waitForElement selector timeout w =
    match querySelector (docAt (now w)) selector with
    | SyntaxError => (Rejected, w, [WaitFor selector timeout])
    | Found (Some existing) =>
        (Resolved (Some existing), w, [WaitFor selector timeout])
    | Found None =>
        match body (docAt (now w)) with
        | None => (Rejected, w, [WaitFor selector timeout])
        | Some _ =>
            match observe selector (now w) (Z.to_nat (timeout - 1)) with
            | Some (t, el) =>
                (Resolved (Some el), setNow w t, [WaitFor selector timeout])
            | None =>
                (Resolved None, setNow w (now w + Z.max 0 timeout),
                 [WaitFor selector timeout])
            end
        end
    end.
Proof.
  unfold Switcher.waitForElement. run.
  destruct (querySelector (docAt (now w)) selector) as [|[e|]]; try done.
  destruct (body (docAt (now w))); [| done].
  by destruct (observe selector (now w) (Z.to_nat (timeout - 1))) as [[t el]|].
Qed.

Lemma waitForElement_frame (selector : string) (timeout : Z) (w : World) :
  trace (waitForElement selector timeout w) = [WaitFor selector timeout]
  /\ onlyTime w (after (waitForElement selector timeout w)).
Proof.
  rewrite waitForElement_eq.
  destruct (querySelector (docAt (now w)) selector) as [|[e|]];
    try (split; [done | apply onlyTime_refl]).
  destruct (body (docAt (now w)));
    try (split; [done | apply onlyTime_refl]).
  destruct (observe selector (now w) (Z.to_nat (timeout - 1)))
    as [[t el]|] eqn:Ho; (split; [done |]); apply onlyTime_setNow.
  - apply observe_Some in Ho. lia.
  - lia.
Qed.

(** *** [fillField] and [fillAllFields] *)

Lemma fillField_shape (field : FieldConfig.t) (w : World) :
  exists attempt,
    trace (fillField field w)
    = WaitFor (FieldConfig.selector field) 5000 :: attempt
    /\ forallb calm attempt = true
    /\ onlyTime w (after (fillField field w)).
Proof.
  destruct (waitForElement_frame (FieldConfig.selector field) 5000 w) as [Ht Hf].
  remember (fillField field w) as r0 eqn:Hr.
  unfold Switcher.fillField in Hr. cbv [bind emit get put ret] in Hr.
  destruct (waitForElement (FieldConfig.selector field) 5000 w) as [[r w1] t1].
  cbn [trace after fst snd] in Ht, Hf. subst t1.
  destruct r as [[el|]|]; try (subst r0; by eexists).
  destruct (isInputTag (docAt (now w1)) el); [subst r0; by eexists |].
  destruct (querySelectorInput (docAt (now w1)) el); subst r0; by eexists.
Qed.

Lemma sleep_eq (ms : Z) (w : World) :
  sleep ms w = (tt, setNow w (now w + Z.max 0 ms), [Timeout ms]).
Proof. reflexivity. Qed.

Lemma fillAllFields_cons (field : FieldConfig.t) (rest : list FieldConfig.t)
    (w : World) :
  let r1 := fillField field w in
  let r2 := fillAllFields rest (setNow (after r1) (now (after r1) + 100)) in
  fillAllFields (field :: rest) w
  = (tt, after r2, trace r1 ++ Timeout 100 :: trace r2).
Proof.
  intros r1 r2. subst r1 r2. cbn [Switcher.fillAllFields].
  cbv [bind sleep emit get put ret].
  destruct (fillField field w) as [[b w1] t1]. cbn [after trace fst snd].
  change (Z.max 0 100) with 100%Z.
  by destruct (fillAllFields rest (setNow w1 (now w1 + 100))) as [[[] w2] t2].
Qed.

Lemma fillAllFields_Sequenced (fields : list FieldConfig.t) :
  forall w,
    Sequenced fields (trace (fillAllFields fields w))
    /\ onlyTime w (after (fillAllFields fields w)).
Proof.
  induction fields as [|field rest IH]; intros w.
  - split; [constructor | apply onlyTime_refl].
  - rewrite fillAllFields_cons. cbn [trace after fst snd].
    destruct (fillField_shape field w) as (attempt & -> & Hcalm & Hf).
    destruct (IH (setNow (after (fillField field w))
                    (now (after (fillField field w)) + 100))) as [Hs Ho].
    split.
    + cbn [app]. by constructor.
    + eapply onlyTime_trans; [exact Hf |].
      eapply onlyTime_trans; [| exact Ho].
      apply onlyTime_setNow. lia.
Qed.

Lemma Sequenced_waits (fields : list FieldConfig.t) (t : list Event) :
  Sequenced fields t ->
  List.filter isWaitFor t
  = map (fun f => WaitFor (FieldConfig.selector f) 5000) fields
  /\ List.filter isTimeout t = map (fun _ => Timeout 100) fields
  /\ forallb (fun e => negb (isClick e) && negb (isRemove e)) t = true.
Proof.
  assert (Hcalm : forall l, forallb calm l = true ->
            List.filter isWaitFor l = [] /\ List.filter isTimeout l = []
            /\ forallb (fun e => negb (isClick e) && negb (isRemove e)) l = true).
  { induction l as [|e l IHl]; [done |]. cbn [forallb List.filter].
    intros H. apply andb_true_iff in H as [He Hl].
    destruct (IHl Hl) as (-> & -> & ->).
    unfold calm in He. by destruct e. }
  induction 1 as [|field rest attempt t Hc Hs (IH1 & IH2 & IH3)]; [done |].
  destruct (Hcalm _ Hc) as (H1 & H2 & H3).
  cbn [List.filter isWaitFor isTimeout forallb isClick isRemove negb andb map].
  rewrite !List.filter_app, H1, H2, forallb_app, H3.
  cbn [List.filter isWaitFor isTimeout forallb isClick isRemove negb andb app].
  by rewrite IH1, IH2, IH3.
Qed.

Lemma fillAllFields_duration (fields : list FieldConfig.t) :
  forall w,
    (now w + 100 * Z.of_nat (length fields)
     <= now (after (fillAllFields fields w)))%Z.
Proof.
  induction fields as [|field rest IH]; intros w.
  - cbn. lia.
  - rewrite fillAllFields_cons. cbn [after fst snd].
    destruct (fillField_shape field w) as (_ & _ & _ & [Hle _]).
    specialize (IH (setNow (after (fillField field w))
                      (now (after (fillField field w)) + 100))).
    cbn [now setNow] in IH. cbn [length]. lia.
Qed.

(** *** [clickLoginButton] *)

Lemma clickLoginButton_shape (selector : string) (w : World) :
  exists t,
    trace (clickLoginButton selector w) = WaitFor selector 5000 :: t
    /\ forallb (fun e => negb (isFill e) && negb (isWaitFor e)
                         && negb (isRemove e)) t = true
    /\ onlyTime w (after (clickLoginButton selector w)).
Proof.
  destruct (waitForElement_frame selector 5000 w) as [Ht Hf].
  remember (clickLoginButton selector w) as r0 eqn:Hr.
  unfold Switcher.clickLoginButton in Hr. cbv [bind emit get put ret] in Hr.
  destruct (waitForElement selector 5000 w) as [[r w1] t1].
  cbn [trace after fst snd] in Ht, Hf. subst t1.
  destruct r as [[el|]|]; subst r0; by eexists.
Qed.

(** *** The resume phase *)

Lemma checkAndFillPending_absent (w : World) :
  match chromeStorage w !! PENDING_KEY with
  | Some (VString _) => False
  | _ => True
  end ->
  checkAndFillPending w = (tt, w, [StorageGet PENDING_KEY]).
Proof.
  intros H. unfold Switcher.checkAndFillPending.
  cbv [bind storageGet emit get put ret].
  by destruct (chromeStorage w !! PENDING_KEY) as [[text|]|].
Qed.

Lemma checkAndFillPending_garbled (w : World) (text : string) :
  chromeStorage w !! PENDING_KEY = Some (VString text) ->
  JSON_parse text = None ->
  checkAndFillPending w
  = (tt, w, [StorageGet PENDING_KEY; Console Error AutoFillFailed]).
Proof.
  intros Hs Hp. unfold Switcher.checkAndFillPending.
  cbv [bind storageGet emit get put ret]. by rewrite Hs, Hp.
Qed.

Lemma checkAndFillPending_eq (w : World) (text : string) (fillData : FillData.t) :
  chromeStorage w !! PENDING_KEY = Some (VString text) ->
  JSON_parse text = Some fillData ->
  checkAndFillPending w =
    if (10000 <? now w - FillData.timestamp fillData)%Z then
      (tt, setChromeStorage w (delete PENDING_KEY (chromeStorage w)),
       [StorageGet PENDING_KEY; StorageRemove PENDING_KEY])
    else
      let r1 := fillAllFields (FillData.fields fillData) (setNow w (now w + 500)) in
      let w2 := setChromeStorage (after r1)
                  (delete PENDING_KEY (chromeStorage (after r1))) in
      let head := StorageGet PENDING_KEY :: Console Log PendingDetected
                  :: Timeout 500 :: trace r1
                  ++ [StorageRemove PENDING_KEY; Console Log FillComplete] in
      match FillData.loginButtonSelector fillData with
      | Some selector =>
          if Selector.truthy selector then
            let r3 := clickLoginButton selector (setNow w2 (now w2 + 300)) in
            (tt, after r3,
             head ++ Console Log AboutToClick :: Timeout 300 :: trace r3)
          else (tt, w2, head)
      | None => (tt, w2, head)
      end.
Proof.
  intros Hs Hp. unfold Switcher.checkAndFillPending.
  cbv [bind storageGet storageRemove sleep emit get put ret].
  rewrite Hs, Hp.
  destruct (10000 <? now w - FillData.timestamp fillData)%Z; [done |].
  change (Z.max 0 500) with 500%Z. change (Z.max 0 300) with 300%Z.
  cbn [now setNow].
  destruct (fillAllFields (FillData.fields fillData) (setNow w (now w + 500)))
    as [[[] w1] t1].
  cbn [after trace fst snd app].
  destruct (FillData.loginButtonSelector fillData) as [selector|].
  - destruct (Selector.truthy selector).
    + destruct (clickLoginButton selector _) as [[b w3] t3].
      cbn [after trace fst snd app].
      by rewrite <- ?app_assoc, ?app_nil_r.
    + by rewrite <- ?app_assoc, ?app_nil_r.
  - by rewrite <- ?app_assoc, ?app_nil_r.
Qed.

Lemma forallb_weaken {A} (p q : A -> bool) (l : list A) :
  (forall x, p x = true -> q x = true) ->
  forallb p l = true -> forallb q l = true.
Proof.
  intros Hpq. rewrite !forallb_forall. intros H x Hx. by apply Hpq, H.
Qed.

Lemma onlyTime_store (w w' : World) :
  onlyTime w w' -> chromeStorage w' = chromeStorage w.
Proof. intros [_ ->]. reflexivity. Qed.

(** *** ElementWaiter *)


(** *** FieldFiller *)


(** *** NavigationHandoffProtocol: the resume phase *)

(** C1, amended. A payload read in the resume phase is applied if and
    only if its age is at most 10,000 ms: then the page settles for
    500 ms and [fillAllFields] runs on the payload's fields.  An older
    payload is removed from the store and nothing else happens. *)
Theorem pending_freshness (w : World) (text : string) (fillData : FillData.t) :
  chromeStorage w !! PENDING_KEY = Some (VString text) ->
  JSON_parse text = Some fillData ->
  let r := checkAndFillPending w in
  let age := (now w - FillData.timestamp fillData)%Z in
  ((age <= 10000)%Z ->
   exists rest,
     trace r
     = StorageGet PENDING_KEY :: Console Log PendingDetected :: Timeout 500
       :: trace (fillAllFields (FillData.fields fillData)
                   (setNow w (now w + 500)))
       ++ rest)
  /\ ((10000 < age)%Z ->
      r = (tt, setChromeStorage w (delete PENDING_KEY (chromeStorage w)),
           [StorageGet PENDING_KEY; StorageRemove PENDING_KEY]))
  /\ (In (Console Log PendingDetected) (trace r) <-> (age <= 10000)%Z).
Proof.
  intros Hs Hp r age. subst r age.
  rewrite (checkAndFillPending_eq w text fillData Hs Hp).
  destruct (10000 <? now w - FillData.timestamp fillData)%Z eqn:Hage.
  - apply Z.ltb_lt in Hage. split; [lia |]. split; [done |].
    cbn [trace snd In]. split; [intuition discriminate | lia].
  - apply Z.ltb_ge in Hage. split; [| split; [lia |]].
    + intros _. cbv zeta.
      destruct (FillData.loginButtonSelector fillData) as [selector|];
        [destruct (Selector.truthy selector) |];
        cbn [trace snd app]; rewrite <- ?app_assoc; eauto.
    + split; [done |]. intros _. cbv zeta.
      destruct (FillData.loginButtonSelector fillData) as [selector|];
        [destruct (Selector.truthy selector) |];
        cbn [trace snd app In]; tauto.
Qed.

(** C2, amended. When the stored text parses, the resume phase leaves
    no payload in the store, and a later page load finds none.  An
    expired payload is removed at once.  A fresh one is removed after
    [fillAllFields] has gone through all fields, whatever the attempts
    gave, and before the login button is waited for; while the fields
    are filled it is still in the store. *)
Theorem pending_consumed (w : World) (text : string) (fillData : FillData.t) :
  chromeStorage w !! PENDING_KEY = Some (VString text) ->
  JSON_parse text = Some fillData ->
  let r := checkAndFillPending w in
  let age := (now w - FillData.timestamp fillData)%Z in
  chromeStorage (after r) !! PENDING_KEY = None
  /\ (forall w', chromeStorage w' = chromeStorage (after r) ->
                 checkAndFillPending w' = (tt, w', [StorageGet PENDING_KEY]))
  /\ ((10000 < age)%Z ->
      trace r = [StorageGet PENDING_KEY; StorageRemove PENDING_KEY])
  /\ ((age <= 10000)%Z ->
      let filled := fillAllFields (FillData.fields fillData)
                      (setNow w (now w + 500)) in
      chromeStorage (after filled) !! PENDING_KEY = Some (VString text)
      /\ Sequenced (FillData.fields fillData) (trace filled)
      /\ forallb (fun e => negb (isRemove e)) (trace filled) = true
      /\ exists rest,
          trace r
          = StorageGet PENDING_KEY :: Console Log PendingDetected
            :: Timeout 500 :: trace filled
            ++ StorageRemove PENDING_KEY :: Console Log FillComplete :: rest
          /\ forallb (fun e => negb (isFill e) && negb (isRemove e)) rest
             = true).
Proof.
  intros Hs Hp r age.
  assert (Hgone : chromeStorage (after r) !! PENDING_KEY = None).
  { subst r. rewrite (checkAndFillPending_eq w text fillData Hs Hp).
    destruct (10000 <? now w - FillData.timestamp fillData)%Z;
      [apply lookup_delete_eq |].
    cbv zeta.
    destruct (FillData.loginButtonSelector fillData) as [selector|];
      [destruct (Selector.truthy selector) |];
      cbn [after fst snd]; try apply lookup_delete_eq.
    match goal with
    | |- context [clickLoginButton ?s ?w0] =>
        destruct (clickLoginButton_shape s w0) as (t & _ & _ & Ho)
    end.
    rewrite (onlyTime_store _ _ Ho).
    apply lookup_delete_eq. }
  split; [done |]. split.
  { intros w' Hw'. apply checkAndFillPending_absent. by rewrite Hw', Hgone. }
  subst r age. rewrite (checkAndFillPending_eq w text fillData Hs Hp).
  destruct (10000 <? now w - FillData.timestamp fillData)%Z eqn:Hage.
  - apply Z.ltb_lt in Hage. split; [done | lia].
  - apply Z.ltb_ge in Hage. split; [lia |]. intros _ filled.
    destruct (fillAllFields_Sequenced (FillData.fields fillData)
                (setNow w (now w + 500))) as [Hseq Ho].
    fold filled in Hseq, Ho.
    destruct (Sequenced_waits _ _ Hseq) as (_ & _ & H3).
    split; [by rewrite (onlyTime_store _ _ Ho) |].
    split; [done |]. split.
    { revert H3. apply forallb_weaken. intros e He.
      by apply andb_true_iff in He as [_ ->]. }
    cbv zeta. fold filled.
    destruct (FillData.loginButtonSelector fillData) as [selector|];
      [destruct (Selector.truthy selector) |];
      cbn [trace snd app]; rewrite <- ?app_assoc; cbn [app];
      try (by exists []).
    match goal with
    | |- context [clickLoginButton ?s ?w0] =>
        destruct (clickLoginButton_shape s w0) as (t & Ht & Hc & _)
    end.
    cbn [trace snd] in Ht. rewrite Ht. eexists. split; [reflexivity |].
    cbn [forallb isFill isRemove negb andb].
    revert Hc. apply forallb_weaken. intros e He.
    apply andb_true_iff in He as [He ->].
    by apply andb_true_iff in He as [-> _].
Qed.

End Handoff.

(** *** NavigationHandoffProtocol: the switch phase *)

Section Switch.
Import Dom Switcher.

Variable JSON_stringify : FillData.t -> string.
Local Abbreviation switchEnvironment := (switchEnvironment JSON_stringify).

Lemma switchEnvironment_eq (env : EnvConfig.t) (w : World) :
  let fillData :=
    JSON_stringify
      {| FillData.envId := EnvConfig.id env;
         FillData.fields := EnvConfig.fields env;
         FillData.loginButtonSelector := EnvConfig.loginButtonSelector env;
         FillData.timestamp := now w |} in
  switchEnvironment env w =
    (tt,
     {| now := now w;
        chromeStorage := <[PENDING_KEY := VString fillData]> (chromeStorage w);
        localStorage := if storageAccess w then ∅ else localStorage w;
        sessionStorage := if storageAccess w then ∅ else sessionStorage w;
        storageAccess := storageAccess w;
        href := EnvConfig.loginUrl env |},
     [LocalStorageClear;
      if storageAccess w then Console Log LocalStorageCleared
      else Console Error LocalStorageFailed;
      SessionStorageClear;
      if storageAccess w then Console Log SessionStorageCleared
      else Console Error SessionStorageFailed;
      StorageSet PENDING_KEY fillData;
      Navigate (EnvConfig.loginUrl env)]).
Proof.
  intros fillData. subst fillData. unfold Switcher.switchEnvironment.
  cbv [bind clearLocalStorage clearSessionStorage storageSet navigate
       emit get put ret].
  by destruct (storageAccess w) eqn:Ha; cbn; rewrite ?Ha.
Qed.

(** C9. [switchEnvironment] clears [localStorage] and [sessionStorage],
    then stages the payload made of the environment's id, fields and
    login button selector and of the current instant, and only then
    navigates to the login URL; nothing follows the navigation.  When
    the navigation is issued both storages are empty (if the page may
    use them at all) and the payload is in the store. *)
Theorem switchEnvironment_order (env : EnvConfig.t) (w : World) :
  let r := switchEnvironment env w in
  let fillData :=
    JSON_stringify
      {| FillData.envId := EnvConfig.id env;
         FillData.fields := EnvConfig.fields env;
         FillData.loginButtonSelector := EnvConfig.loginButtonSelector env;
         FillData.timestamp := now w |} in
  let go := Navigate (EnvConfig.loginUrl env) in
  precedes LocalStorageClear go (trace r)
  /\ precedes SessionStorageClear go (trace r)
  /\ precedes (StorageSet PENDING_KEY fillData) go (trace r)
  /\ (exists before, trace r = before ++ [go]
                     /\ forall url, ~ In (Navigate url) before)
  /\ chromeStorage (after r) !! PENDING_KEY = Some (VString fillData)
  /\ (storageAccess w = true ->
      localStorage (after r) = ∅ /\ sessionStorage (after r) = ∅)
  /\ href (after r) = EnvConfig.loginUrl env.
Proof.
  intros r fillData go. subst r go.
  pose proof (switchEnvironment_eq env w) as He. cbv zeta in He.
  fold fillData in He. rewrite He. cbn [trace after fst snd].
  split; [by eexists [], [_; _; _; _], [] |].
  split; [by eexists [_; _], [_; _], [] |].
  split; [by eexists [_; _; _; _], [], [] |].
  split.
  { exists [LocalStorageClear;
            if storageAccess w then Console Log LocalStorageCleared
            else Console Error LocalStorageFailed;
            SessionStorageClear;
            if storageAccess w then Console Log SessionStorageCleared
            else Console Error SessionStorageFailed;
            StorageSet PENDING_KEY fillData].
    split; [done |]. intros url Hin.
    destruct (storageAccess w); cbn [In] in Hin; intuition discriminate. }
  split; [apply lookup_insert_eq |].
  split; [| done]. intros ->. done.
Qed.

End Switch.

(** ** Runs on the sample pages *)

Section Runs.
Import Dom Switcher Sample.

Local Abbreviation still := (fun _ : Z => loginPage).




Lemma switchEnvironment_order_witness :
  href (after (switchEnvironment stringify staging (arrived 100 "")))
  = "https://staging.example.com/login".
Proof.
  apply (switchEnvironment_order stringify staging (arrived 100 "")).
Defined.

Lemma pending_freshness_witness :
  In (Console Log PendingDetected)
     (trace (checkAndFillPending idQuery still parse (arrived 10000 "<payload>")))
  <-> (10000 - 0 <= 10000)%Z.
Proof.
  refine (proj2 (proj2
    (pending_freshness idQuery still parse
       (arrived 10000 "<payload>") "<payload>" payload _ _))).
  - reflexivity.
  - reflexivity.
Defined.

(** C1 as claimed fails: a payload created at instant 0 and read at
    instant 10,000 is 10,000 ms old, and it is applied: the user field
    gets its value. *)
Lemma pending_freshness_counterexample :
  (now (arrived 10000 "<payload>") - FillData.timestamp payload = 10000)%Z
  /\ chromeStorage (arrived 10000 "<payload>") !! PENDING_KEY
     = Some (VString "<payload>")
  /\ parse "<payload>" = Some payload
  /\ In (SetValue theUserInput "alice")
        (trace (checkAndFillPending idQuery still parse
                  (arrived 10000 "<payload>"))).
Proof.
  split; [reflexivity |]. split; [reflexivity |]. split; [reflexivity |].
  vm_compute. tauto.
Qed.

Lemma pending_consumed_witness :
  chromeStorage
    (after (checkAndFillPending idQuery rendering parse (arrived 100 "<payload>")))
  !! PENDING_KEY = None.
Proof.
  refine (proj1
    (pending_consumed idQuery rendering parse
       (arrived 100 "<payload>") "<payload>" payload _ _)).
  - reflexivity.
  - reflexivity.
Defined.

(** C2 as claimed fails.  A fresh payload is removed only after the
    fields were filled: the removal stands behind the assignment of
    the value in the trace, and not right behind the read.  A stored
    text that does not parse is never removed. *)
Lemma pending_consumed_counterexample :
  (exists filling rest,
      trace (checkAndFillPending idQuery still parse (arrived 100 "<payload>"))
      = StorageGet PENDING_KEY :: filling ++ StorageRemove PENDING_KEY :: rest
      /\ In (SetValue theUserInput "alice") filling
      /\ ~ In (StorageRemove PENDING_KEY) filling)
  /\ (let r := checkAndFillPending idQuery still parse (arrived 100 "{") in
      forallb (fun e => negb (isRemove e)) (trace r) = true
      /\ chromeStorage (after r) !! PENDING_KEY = Some (VString "{")).
Proof.
  split.
  - exists [Console Log PendingDetected; Timeout 500; WaitFor "#user" 5000;
            Focus theUserInput; SetValue theUserInput "alice";
            Dispatch theUserInput "input"; Dispatch theUserInput "change";
            Dispatch theUserInput "keydown"; Dispatch theUserInput "keyup";
            Console Log (FieldFilled "user"); Timeout 100].
    eexists. split; [vm_compute; reflexivity |].
    split; [cbn [In]; tauto |]. cbn [In]. intuition discriminate.
  - split; reflexivity.
Qed.

End Runs.

(* ===================================================================== *)
(** * Further properties *)
(* ===================================================================== *)

(** ** The configuration store *)

Section ConfigStore.
Import Config.

Lemma current_rewritten (st : Store) (c : AppConfig) :
  current (rewritten st c) = c.
Proof. reflexivity. Qed.

Lemma addEnv_eq (st : Store) (env : Draft) (i : string) :
  let newEnv :=
    {| EnvConfig.id := i; EnvConfig.name := name env;
       EnvConfig.loginUrl := loginUrl env; EnvConfig.fields := fields env;
       EnvConfig.loginButtonSelector := loginButtonSelector env |} in
  addEnv st env i
  = (rewritten st (withEnvironments (current st)
                     (environments (current st) ++ [newEnv])), newEnv).
Proof. by destruct st as [[c|] d]. Qed.

Lemma updateEnv_eq (st : Store) (env : EnvConfig.t) :
  updateEnv st env =
    match findIndex (fun e => String.eqb (EnvConfig.id e) (EnvConfig.id env))
            (environments (current st)) with
    | Some index =>
        rewritten st (withEnvironments (current st)
                        (<[index := env]> (environments (current st))))
    | None => st
    end.
Proof.
  destruct st as [[c|] d]; unfold updateEnv, current; cbn;
    by destruct (findIndex _ _).
Qed.

Lemma deleteEnv_eq (st : Store) (envId : string) :
  deleteEnv st envId = rewritten st (without envId (current st)).
Proof.
  destruct st as [[c|] d]; unfold deleteEnv, current, without; cbn;
    destruct c || destruct d; cbn;
    match goal with
    | |- context [match ?o with Some _ => _ | None => _ end] =>
        destruct o as [cur|]; cbn; [destruct (String.eqb cur envId) |]
    end; reflexivity.
Qed.

Lemma setCurrentEnv_eq (st : Store) (envId : option string) :
  setCurrentEnv st envId = rewritten st (withCurrentEnvId (current st) envId).
Proof. by destruct st as [[c|] d]. Qed.

Lemma savePanelPosition_eq (st : Store) (px py : Z) :
  savePanelPosition st px py
  = rewritten st (withPanelPosition (current st) (Some {| x := px; y := py |})).
Proof. by destruct st as [[c|] d]. Qed.

Lemma saveAllowedDomains_eq (st : Store) (domains : list string) :
  saveAllowedDomains st domains
  = rewritten st (withAllowedDomains (current st) (Some domains)).
Proof. by destruct st as [[c|] d]. Qed.

(** *** [findIndex] and [find] *)

Lemma findIndex_None {A} (p : A -> bool) (xs : list A) :
  findIndex p xs = None <-> forall x, In x xs -> p x = false.
Proof.
  induction xs as [|x xs IH]; cbn; [by split |].
  destruct (p x) eqn:Hx.
  - split; [done |]. intros H. specialize (H x (or_introl eq_refl)). congruence.
  - destruct (findIndex p xs) as [k|]; cbn.
    + split; [done |]. intros H.
      pose proof (proj2 IH (fun y Hy => H y (or_intror Hy))). discriminate.
    + split; [| done]. intros _ y [<- | Hy]; [done |]. by apply IH.
Qed.

Lemma findIndex_Some {A} (p : A -> bool) (xs : list A) (k : nat) :
  findIndex p xs = Some k ->
  exists x, xs !! k = Some x /\ p x = true
            /\ forall j y, (j < k)%nat -> xs !! j = Some y -> p y = false.
Proof.
  revert k. induction xs as [|x xs IH]; intros k; cbn; [done |].
  destruct (p x) eqn:Hx.
  - intros [= <-]. exists x. split; [done |]. split; [done |]. lia.
  - destruct (findIndex p xs) as [k'|]; cbn; [| done].
    intros [= <-]. destruct (IH k' eq_refl) as (y & Hy & Hp & Hlt).
    exists y. split; [done |]. split; [done |].
    intros [|j] z Hj Hz; cbn in Hz; [by injection Hz as <- |].
    apply (Hlt j); [lia | done].
Qed.

Lemma find_insert_first {A} (p : A -> bool) (xs : list A) (k : nat) (new : A) :
  findIndex p xs = Some k -> p new = true ->
  List.find p (<[k := new]> xs) = Some new.
Proof.
  revert k. induction xs as [|x xs IH]; intros k; cbn; [done |].
  destruct (p x) eqn:Hx.
  - intros [= <-] Hn. cbn. by rewrite Hn.
  - destruct (findIndex p xs) as [k'|]; cbn; [| done].
    intros [= <-] Hn. cbn. rewrite Hx. by apply IH.
Qed.

Lemma find_app_fresh {A} (p : A -> bool) (xs : list A) (new : A) :
  (forall x, In x xs -> p x = false) -> p new = true ->
  List.find p (xs ++ [new]) = Some new.
Proof.
  intros Hxs Hn. induction xs as [|x xs IH]; cbn; [by rewrite Hn |].
  rewrite (Hxs x (or_introl eq_refl)). apply IH. intros y Hy. apply Hxs. by right.
Qed.

Lemma has_id (i : string) (envs : list EnvConfig.t) :
  In i (map EnvConfig.id envs)
  <-> exists e, In e envs /\ String.eqb (EnvConfig.id e) i = true.
Proof.
  rewrite in_map_iff. split; intros (e & H1 & H2); exists e.
  - split; [done |]. by apply String.eqb_eq.
  - split; [by apply String.eqb_eq | done].
Qed.

Lemma no_id (i : string) (envs : list EnvConfig.t) :
  ~ In i (map EnvConfig.id envs)
  <-> forall e, In e envs -> String.eqb (EnvConfig.id e) i = false.
Proof.
  rewrite has_id. split.
  - intros H e He. destruct (String.eqb (EnvConfig.id e) i) eqn:Hi; [| done].
    exfalso. eauto.
  - intros H (e & He & Hi). rewrite (H e He) in Hi. discriminate.
Qed.

(** X1. [addEnv] with an id no environment has yet appends the new
    environment, which carries that id and the draft's data; looking the
    id up afterwards finds it; the rest of the configuration is as
    before. *)
Theorem addEnv_lookup (st : Store) (env : Draft) (i : string) :
  ~ In i (ids (current st)) ->
  let st' := fst (addEnv st env i) in
  let e := snd (addEnv st env i) in
  e = {| EnvConfig.id := i; EnvConfig.name := name env;
         EnvConfig.loginUrl := loginUrl env; EnvConfig.fields := fields env;
         EnvConfig.loginButtonSelector := loginButtonSelector env |}
  /\ current st' = withEnvironments (current st) (environments (current st) ++ [e])
  /\ List.find (fun x => String.eqb (EnvConfig.id x) i)
       (environments (current st')) = Some e
  /\ List.find (fun x => String.eqb (EnvConfig.id x) i)
       (environments (current st)) = None.
Proof.
  intros Hfresh st' e. subst st' e. rewrite addEnv_eq. cbn [fst snd].
  rewrite current_rewritten. split; [done |]. split; [done |].
  pose proof (proj1 (no_id _ _) Hfresh) as Hno. split.
  - cbn. apply find_app_fresh; [done | apply String.eqb_refl].
  - destruct (List.find _ _) as [x|] eqn:Hf; [| done].
    apply find_some in Hf as [Hin Hx]. by rewrite (Hno x Hin) in Hx.
Qed.

Lemma map_insert_same {A B} (f : A -> B) (xs : list A) (k : nat) (x new : A) :
  xs !! k = Some x -> f new = f x -> map f (<[k := new]> xs) = map f xs.
Proof.
  revert k. induction xs as [|y ys IH]; intros [|k]; cbn; try done.
  - intros [= ->] ->. done.
  - intros Hk Hf. f_equal. by apply IH.
Qed.

Lemma updateEnv_ids (st : Store) (env : EnvConfig.t) :
  (~ In (EnvConfig.id env) (ids (current st)) -> updateEnv st env = st)
  /\ (In (EnvConfig.id env) (ids (current st)) ->
      ids (current (updateEnv st env)) = ids (current st)).
Proof.
  rewrite updateEnv_eq. split.
  - intros Hno. pose proof (proj1 (no_id _ _) Hno) as H.
    apply findIndex_None in H. by rewrite H.
  - intros Hin.
    destruct (findIndex _ (environments (current st))) as [k|] eqn:Hk; [| done].
    destruct (findIndex_Some _ _ _ Hk) as (x & Hx & Hp & _).
    apply String.eqb_eq in Hp. rewrite current_rewritten.
    unfold ids. cbn. by apply (map_insert_same _ _ _ x).
Qed.

(** X2. [updateEnv] with an id some environment has puts the given
    environment in the place of the first one with that id: the ids and
    their order stay, looking the id up finds the given environment,
    and environments with another id are not touched.  With an id no
    environment has, nothing changes and nothing is saved. *)
Theorem updateEnv_replaces (st : Store) (env : EnvConfig.t) :
  (~ In (EnvConfig.id env) (ids (current st)) -> updateEnv st env = st)
  /\ (In (EnvConfig.id env) (ids (current st)) ->
      let st' := updateEnv st env in
      ids (current st') = ids (current st)
      /\ List.find (fun x => String.eqb (EnvConfig.id x) (EnvConfig.id env))
           (environments (current st')) = Some env
      /\ (forall k e, environments (current st) !! k = Some e ->
                      EnvConfig.id e <> EnvConfig.id env ->
                      environments (current st') !! k = Some e)
      /\ currentEnvId (current st') = currentEnvId (current st)
      /\ panelPosition (current st') = panelPosition (current st)
      /\ allowedDomains (current st') = allowedDomains (current st)).
Proof.
  rewrite updateEnv_eq. split.
  - intros Hno. pose proof (proj1 (no_id _ _) Hno) as H.
    apply findIndex_None in H. by rewrite H.
  - intros Hin.
    destruct (findIndex _ (environments (current st))) as [k|] eqn:Hk.
    2:{ exfalso. pose proof (proj1 (findIndex_None _ _) Hk) as Hnone.
        by apply (proj2 (no_id _ _) Hnone). }
    destruct (findIndex_Some _ _ _ Hk) as (x & Hx & Hp & _).
    apply String.eqb_eq in Hp. cbv zeta. rewrite current_rewritten.
    unfold ids. cbn [environments withEnvironments currentEnvId
                     panelPosition allowedDomains].
    split; [by apply (map_insert_same _ _ _ x) |].
    split; [apply find_insert_first; [done | apply String.eqb_refl] |].
    split; [| done].
    intros j e Hj Hne. rewrite list_lookup_insert_ne; [done |].
    intros <-. rewrite Hx in Hj. injection Hj as <-. done.
Qed.

Lemma updateEnv_replaces_witness :
  List.find (fun x => String.eqb (EnvConfig.id x) "env1")
    (environments
       (current (updateEnv (fst (addEnv empty (mkDraft "a" "u" [] None) "env1"))
                   (EnvConfig.make "env1" "b" "v" [] None))))
  = Some (EnvConfig.make "env1" "b" "v" [] None).
Proof.
  destruct (proj2 (updateEnv_replaces
                     (fst (addEnv empty (mkDraft "a" "u" [] None) "env1"))
                     (EnvConfig.make "env1" "b" "v" [] None)))
    as (_ & H & _); [cbn; by left | exact H].
Defined.

Lemma without_without (i : string) (c : AppConfig) :
  without i (without i c) = without i c.
Proof.
  unfold without; cbn. f_equal.
  - rewrite filter_twice. apply filter_ext. intros e. by destruct (negb _).
  - destruct (currentEnvId c) as [cur|]; [| done].
    destruct (String.eqb cur i) eqn:E; [done | by rewrite E].
Qed.

(** X3. [deleteEnv] removes every environment with the id and keeps the
    others in their order; the current environment is forgotten exactly
    when it is the deleted one; an entry is saved in any case; deleting
    again changes nothing. *)
Theorem deleteEnv_removes (st : Store) (envId : string) :
  let st' := deleteEnv st envId in
  environments (current st')
  = List.filter (fun e => negb (String.eqb (EnvConfig.id e) envId))
      (environments (current st))
  /\ ~ In envId (ids (current st'))
  /\ currentEnvId (current st')
     = (if bool_decide (currentEnvId (current st) = Some envId)
        then None else currentEnvId (current st))
  /\ stored st' = Some (current st')
  /\ deleteEnv st' envId = st'.
Proof.
  intros st'. subst st'. rewrite !deleteEnv_eq, !current_rewritten.
  split; [done |]. split.
  { apply no_id. intros e He. apply filter_In in He as [_ He].
    by apply negb_true_iff in He. }
  split.
  { cbn. destruct (currentEnvId (current st)) as [cur|]; [| done].
    destruct (String.eqb cur envId) eqn:E.
    - apply String.eqb_eq in E as ->. by rewrite bool_decide_eq_true_2.
    - apply String.eqb_neq in E. rewrite bool_decide_eq_false_2; [done |].
      congruence. }
  split; [done |].
  rewrite without_without. unfold rewritten. cbn. done.
Qed.

Lemma filter_keep_all {A} (p : A -> bool) (xs : list A) :
  (forall x, In x xs -> p x = true) -> List.filter p xs = xs.
Proof.
  induction xs as [|x xs IH]; intros H; cbn; [done |].
  rewrite (H x (or_introl eq_refl)). f_equal. apply IH.
  intros y Hy. apply H. by right.
Qed.

(** X4. Adding an environment under an id no environment has and then
    deleting that id gives the list of environments back. *)
Theorem addEnv_deleteEnv (st : Store) (env : Draft) (i : string) :
  ~ In i (ids (current st)) ->
  environments (current (deleteEnv (fst (addEnv st env i)) i))
  = environments (current st).
Proof.
  intros Hfresh. pose proof (proj1 (no_id _ _) Hfresh) as Hno.
  rewrite addEnv_eq, deleteEnv_eq, !current_rewritten. cbn.
  rewrite List.filter_app. cbn. rewrite String.eqb_refl. cbn.
  rewrite app_nil_r. apply filter_keep_all.
  intros e He. by rewrite (Hno e He).
Qed.

Lemma addEnv_deleteEnv_witness :
  environments (current (deleteEnv (fst (addEnv empty (mkDraft "a" "u" [] None) "env1")) "env1"))
  = [].
Proof. apply (addEnv_deleteEnv empty). cbn. tauto. Defined.

Lemma addEnv_lookup_witness :
  List.find (fun x => String.eqb (EnvConfig.id x) "env1")
    (environments (current (fst (addEnv empty (mkDraft "a" "u" [] None) "env1"))))
  = Some (snd (addEnv empty (mkDraft "a" "u" [] None) "env1")).
Proof.
  refine (proj1 (proj2 (proj2 (addEnv_lookup empty _ "env1" _)))).
  cbn. tauto.
Defined.

Lemma perform_eq (st : Store) (op : Op) :
  perform st op = st \/ exists c, perform st op = rewritten st c.
Proof.
  destruct op as [env i | env | i | o | px py | ds]; cbn [perform].
  - right. rewrite addEnv_eq. eauto.
  - rewrite updateEnv_eq. destruct (findIndex _ _); eauto.
  - right. rewrite deleteEnv_eq. eauto.
  - right. rewrite setCurrentEnv_eq. eauto.
  - right. rewrite savePanelPosition_eq. eauto.
  - right. rewrite saveAllowedDomains_eq. eauto.
Qed.

(** X5. The module's default object is shared and mutable.  While no
    entry is stored, what a function writes goes into the default
    object: after the call it equals what [loadConfig] shows.  Once an
    entry is stored no call changes the default object any more.  So if
    the entry is removed later, [loadConfig] gives back the first
    configuration ever saved and not the literal default. *)
Theorem defaultObject_shared (st : Store) (op : Op) :
  (stored st = None -> defaultObject (perform st op) = current (perform st op))
  /\ (forall ops, stored st <> None ->
        defaultObject (fold_left perform ops st) = defaultObject st
        /\ stored (fold_left perform ops st) <> None)
  /\ (stored st = None -> stored (perform st op) <> None ->
      forall ops,
        defaultObject (fold_left perform ops (perform st op))
        = current (perform st op)).
Proof.
  assert (H1 : forall st op, stored st = None ->
                 defaultObject (perform st op) = current (perform st op)).
  { intros s o Hs. destruct (perform_eq s o) as [-> | (c & ->)].
    - unfold current, loadConfig. by rewrite Hs.
    - unfold rewritten. by rewrite Hs. }
  assert (H2 : forall ops st, stored st <> None ->
                 defaultObject (fold_left perform ops st) = defaultObject st
                 /\ stored (fold_left perform ops st) <> None).
  { induction ops as [|o ops IH]; intros s Hs; cbn [fold_left]; [done |].
    destruct (perform_eq s o) as [-> | (c & ->)]; [by apply IH |].
    destruct (IH (rewritten s c)) as [Hd Hst]; [done |].
    split; [| done]. rewrite Hd. unfold rewritten. cbn.
    by destruct (stored s). }
  split; [by apply H1 |]. split; [intros ops; by apply H2 |].
  intros Hs Hw ops. destruct (H2 ops _ Hw) as [-> _]. by apply H1.
Qed.

Lemma defaultObject_shared_witness :
  defaultObject
    (fold_left perform [DeleteEnv "env1"; SetCurrentEnv (Some "x")]
       (perform empty (AddEnv (mkDraft "a" "u" [] None) "env1")))
  = current (perform empty (AddEnv (mkDraft "a" "u" [] None) "env1")).
Proof.
  refine (proj2 (proj2 (defaultObject_shared empty _)) _ _ _).
  - reflexivity.
  - discriminate.
Defined.

Lemma NoDup_map_filter {A B} `{EqDecision B} (f : A -> B) (p : A -> bool)
    (xs : list A) :
  NoDup (map f xs) -> NoDup (map f (List.filter p xs)).
Proof.
  induction xs as [|x xs IH]; cbn; [done |].
  intros Hnd. apply NoDup_cons in Hnd as [Hx Hxs].
  destruct (p x); cbn; [| by apply IH].
  apply NoDup_cons. split; [| by apply IH].
  intros Hin. apply Hx. apply list_elem_of_In in Hin. apply list_elem_of_In.
  apply in_map_iff in Hin as (y & Hy & Hin). apply in_map_iff.
  exists y. split; [done |]. by apply filter_In in Hin as [Hin _].
Qed.

(** X6. The ids of the environments stay pairwise different under every
    call, provided [generateId()] hands [addEnv] an id no environment
    has. *)
Theorem ids_stay_unique (st : Store) (op : Op) :
  NoDup (ids (current st)) -> freshFor st op ->
  NoDup (ids (current (perform st op))).
Proof.
  intros Hnd Hfresh.
  destruct op as [env i | env | i | o | px py | ds]; cbn [perform].
  - rewrite addEnv_eq. cbn [fst]. rewrite current_rewritten. unfold ids. cbn.
    rewrite map_app. cbn. apply NoDup_app. split; [done |].
    split; [| apply NoDup_singleton].
    intros x Hx Hi. apply list_elem_of_singleton in Hi as ->.
    apply Hfresh. by apply list_elem_of_In.
  - destruct (in_dec string_dec (EnvConfig.id env) (ids (current st)))
      as [Hin | Hno].
    + by rewrite (proj2 (updateEnv_ids st env) Hin).
    + by rewrite (proj1 (updateEnv_ids st env) Hno).
  - rewrite deleteEnv_eq, current_rewritten. unfold ids. cbn.
    by apply NoDup_map_filter.
  - by rewrite setCurrentEnv_eq, current_rewritten.
  - by rewrite savePanelPosition_eq, current_rewritten.
  - by rewrite saveAllowedDomains_eq, current_rewritten.
Qed.

Lemma ids_stay_unique_witness :
  NoDup (ids (current (perform empty (AddEnv (mkDraft "a" "u" [] None) "env1")))).
Proof.
  apply ids_stay_unique; [apply NoDup_nil_2 | cbn; tauto].
Defined.

End ConfigStore.

(** ** The allowed domains text of the popup *)

Section DomainsText.
Import JsString Storage Popup.











(** *** [split] *)

Lemma split_nonempty (s : string) (sep : ascii) : split s sep <> [].
Proof.
  destruct s as [|c r]; cbn; [done |].
  destruct (Ascii.eqb c sep); [done |]. by destruct (split r sep).
Qed.












(** X10. More patterns allow more: a host name allowed by a list that
    is not empty stays allowed when patterns are added at either end. *)
Theorem isCurrentDomainAllowed_grows (hostname : string) (ps qs : list string) :
  ps <> [] ->
  isCurrentDomainAllowed hostname (Some ps) = true ->
  isCurrentDomainAllowed hostname (Some (ps ++ qs)) = true
  /\ isCurrentDomainAllowed hostname (Some (qs ++ ps)) = true.
Proof.
  intros Hne Hps.
  assert (He : existsb (fun p => matchDomain hostname p) ps = true)
    by (by destruct ps).
  assert (Hall : forall l, existsb (fun p => matchDomain hostname p) l = true ->
                           isCurrentDomainAllowed hostname (Some l) = true)
    by (intros [|x l]; done).
  split.
  - apply Hall. rewrite existsb_app, He. done.
  - apply Hall. rewrite existsb_app, He. apply orb_true_r.
Qed.

Lemma isCurrentDomainAllowed_grows_witness :
  isCurrentDomainAllowed "a.example.com" (Some (["*.example.com"] ++ ["intra.net"]))
  = true.
Proof.
  apply (isCurrentDomainAllowed_grows "a.example.com" ["*.example.com"]);
    [discriminate | reflexivity].
Defined.

End DomainsText.

(** ** The panel *)

Section PanelFacts.
Import JsString Panel.

(** X11. While it is dragged the panel never leaves the window to the
    right or to the bottom by more than its 60 pixel handle; in a
    window of at least 68 pixels it also keeps 8 pixels from the left
    and from the top; and inside these bounds it follows the pointer
    exactly. *)
Theorem handleDragging_bounds (clientX clientY : Z) (dragOffset : Z * Z)
    (innerWidth innerHeight : Z) :
  let p := handleDragging clientX clientY dragOffset innerWidth innerHeight in
  (Config.x p <= innerWidth - 60 /\ Config.y p <= innerHeight - 60)%Z
  /\ ((68 <= innerWidth)%Z -> (8 <= Config.x p)%Z)
  /\ ((68 <= innerHeight)%Z -> (8 <= Config.y p)%Z)
  /\ ((8 <= clientX - fst dragOffset <= innerWidth - 60)%Z ->
      Config.x p = (clientX - fst dragOffset)%Z)
  /\ ((8 <= clientY - snd dragOffset <= innerHeight - 60)%Z ->
      Config.y p = (clientY - snd dragOffset)%Z).
Proof. cbn. lia. Qed.

Lemma handleDragging_bounds_witness :
  (8 <= Config.x (handleDragging 5 700 (20, 10)%Z 1280 720))%Z.
Proof.
  apply (proj1 (proj2 (handleDragging_bounds 5 700 (20, 10)%Z 1280 720))). lia.
Defined.

Lemma truthy_false (s : string) : Selector.truthy s = false <-> s = EmptyString.
Proof.
  unfold Selector.truthy. rewrite negb_false_iff. apply String.eqb_eq.
Qed.


Lemma trim_nonempty_truthy (s : string) :
  Selector.truthy (trim s) = true -> trim s <> EmptyString.
Proof. apply truthy_true. Qed.



End PanelFacts.

Section PanelSwitching.
Import JsString Panel.

Variable querySelector : Dom.Doc -> string -> Switcher.Query.
Variable docAt : Z -> Dom.Doc.
Variable JSON_parse : string -> option FillData.t.
Variable JSON_stringify : FillData.t -> string.

(** X13. [handleSwitchEnv] leaves the page only for an environment of
    the shown configuration that has the id and a login URL: it then
    records the id as current, keeps the stored environments, and runs
    [switchEnvironment] on the first environment with that id.  For an
    id no environment has it does nothing; for an environment without
    login URL it only alerts. *)
Theorem handleSwitchEnv_guard (st : Config.Store) (config : Config.AppConfig)
    (envId : string) :
  match handleSwitchEnv JSON_stringify st config envId with
  | Ignored => ~ In envId (Config.ids config)
  | Alerted =>
      exists env, In env (Config.environments config)
                  /\ EnvConfig.id env = envId
                  /\ EnvConfig.loginUrl env = EmptyString
  | Switched st' leave =>
      exists env,
        List.find (fun item => String.eqb (EnvConfig.id item) envId)
          (Config.environments config) = Some env
        /\ EnvConfig.id env = envId
        /\ EnvConfig.loginUrl env <> EmptyString
        /\ leave = Switcher.switchEnvironment JSON_stringify env
        /\ Config.currentEnvId (Config.current st') = Some envId
        /\ Config.environments (Config.current st')
           = Config.environments (Config.current st)
        /\ forall w, Switcher.href (Switcher.after (leave w))
                     = EnvConfig.loginUrl env
  end.
Proof.
  unfold handleSwitchEnv.
  destruct (List.find _ _) as [env|] eqn:Hf.
  - destruct (find_some _ _ Hf) as [Hin Hid]. apply String.eqb_eq in Hid.
    destruct (Selector.truthy (EnvConfig.loginUrl env)) eqn:Hu; cbn [negb].
    + exists env. split; [done |]. split; [done |].
      split; [by apply truthy_true |]. split; [done |].
      rewrite setCurrentEnv_eq, current_rewritten. split; [done |].
      split; [done |]. intros w.
      by rewrite switchEnvironment_eq.
    + exists env. split; [done |]. split; [done |]. by apply truthy_false.
  - apply no_id. intros e He.
    by apply (find_none _ _ Hf).
Qed.
End PanelSwitching.

(** ** The highlight during a picking session *)

Section Styles.
Import Dom Selector Preview.

Lemma addHighlight_other (st : State) (el x : Handle) :
  x <> el ->
  styleOf (addHighlight st el) x = styleOf st x
  /\ originalStyles (addHighlight st el) !! x = originalStyles st !! x.
Proof.
  intros Hne. unfold addHighlight, styleOf; cbn.
  by rewrite !lookup_insert_ne.
Qed.

Lemma addHighlight_self (st : State) (el : Handle) :
  styleOf (addHighlight st el) el = HIGHLIGHT_STYLE
  /\ originalStyles (addHighlight st el) !! el = Some (styleOf st el).
Proof.
  unfold addHighlight, styleOf; cbn.
  rewrite !lookup_insert_eq. split; [done |]. by rewrite style_eta.
Qed.

Lemma removeHighlight_other (st : State) (el x : Handle) :
  x <> el ->
  styleOf (removeHighlight st el) x = styleOf st x
  /\ originalStyles (removeHighlight st el) !! x = originalStyles st !! x.
Proof.
  intros Hne. unfold removeHighlight, styleOf.
  destruct (originalStyles st !! el); cbn; [| done].
  by rewrite lookup_insert_ne, lookup_delete_ne.
Qed.

Lemma removeHighlight_self (st : State) (el : Handle) (o : Style) :
  originalStyles st !! el = Some o ->
  styleOf (removeHighlight st el) el = o
  /\ originalStyles (removeHighlight st el) !! el = None.
Proof.
  intros Ho. unfold removeHighlight, styleOf. rewrite Ho; cbn.
  by rewrite lookup_insert_eq, lookup_delete_eq.
Qed.

(** [tracked] and [allClean] look at the two style maps and at the
    highlighted element only. *)
Lemma allClean_ext (st0 st st' : State) :
  originalStyles st' = originalStyles st ->
  inlineStyles st' = inlineStyles st ->
  allClean st0 st -> allClean st0 st'.
Proof.
  intros Ho Hi H el. destruct (H el) as [H1 H2].
  unfold untouched, styleOf in *. by rewrite Ho, Hi.
Qed.

Lemma tracked_ext (st0 st st' : State) :
  originalStyles st' = originalStyles st ->
  inlineStyles st' = inlineStyles st ->
  currentHighlighted st' = currentHighlighted st ->
  tracked st0 st -> tracked st0 st'.
Proof.
  intros Ho Hi Hc H el. specialize (H el). rewrite Hc.
  unfold lit, untouched, styleOf in *. by rewrite Ho, Hi.
Qed.

Lemma tracked_none (st0 st : State) :
  currentHighlighted st = None -> (tracked st0 st <-> allClean st0 st).
Proof.
  intros Hc. unfold tracked, allClean. rewrite Hc.
  split; intros H el; specialize (H el);
    by rewrite bool_decide_eq_false_2 in *.
Qed.

Lemma tracked_clear (st0 st : State) (cur : Handle) :
  tracked st0 st -> currentHighlighted st = Some cur ->
  allClean st0 (removeHighlight st cur).
Proof.
  intros H Hc el. pose proof (H el) as Hel. rewrite Hc in Hel.
  destruct (decide (el = cur)) as [-> | Hne].
  - rewrite bool_decide_eq_true_2 in Hel by done. destruct Hel as [Ho Hs].
    destruct (removeHighlight_self st cur _ Ho) as [H1 H2]. by split.
  - rewrite bool_decide_eq_false_2 in Hel by congruence.
    destruct Hel as [Ho Hs].
    destruct (removeHighlight_other st cur el Hne) as [H1 H2].
    split; congruence.
Qed.

Lemma allClean_highlight (st0 st : State) (target : Handle) :
  allClean st0 st ->
  tracked st0 (setHighlighted (addHighlight st target) (Some target)).
Proof.
  intros H el. cbn [currentHighlighted setHighlighted].
  destruct (decide (el = target)) as [-> | Hne].
  - rewrite bool_decide_eq_true_2 by done.
    destruct (addHighlight_self st target) as [H1 H2].
    destruct (H target) as [_ Hs]. split; [| exact H1].
    change (originalStyles (addHighlight st target) !! target
            = Some (styleOf st0 target)).
    by rewrite H2, Hs.
  - rewrite bool_decide_eq_false_2 by congruence.
    destruct (addHighlight_other st target el Hne) as [H1 H2].
    destruct (H el) as [Ho Hs]. split.
    + change (originalStyles (addHighlight st target) !! el = None). congruence.
    + change (styleOf (addHighlight st target) el = styleOf st0 el). congruence.
Qed.

Lemma handleMouseMove_tracked (doc : Doc) (st0 st : State) (target : Handle) :
  tracked st0 st -> tracked st0 (handleMouseMove doc st target).
Proof.
  intros H. unfold handleMouseMove. destruct (inOwnUi doc target); [exact H |].
  destruct (currentHighlighted st) as [cur|] eqn:Hc.
  - destruct (decide (cur = target)) as [-> | Hne].
    + rewrite (bool_decide_eq_true_2 (target = target)) by done. cbn [negb].
      rewrite Hc.
      rewrite (bool_decide_eq_true_2 (Some target = Some target)) by done.
      exact H.
    + rewrite (bool_decide_eq_false_2 (cur = target)) by done. cbn [negb].
      assert (Hc' : currentHighlighted (removeHighlight st cur) = Some cur).
      { unfold removeHighlight. by destruct (originalStyles st !! cur). }
      rewrite Hc'.
      rewrite (bool_decide_eq_false_2 (Some cur = Some target)) by congruence.
      cbn [negb]. apply allClean_highlight. by apply tracked_clear.
  - rewrite Hc. rewrite (bool_decide_eq_false_2 (None = Some target)) by done.
    cbn [negb]. apply allClean_highlight. by apply tracked_none.
Qed.

Lemma stopSelecting_maps (st : State) :
  let cleared := match currentHighlighted st with
                 | Some cur => removeHighlight st cur
                 | None => st
                 end in
  originalStyles (stopSelecting st) = originalStyles cleared
  /\ inlineStyles (stopSelecting st) = inlineStyles cleared.
Proof.
  unfold stopSelecting; cbn. destruct (currentHighlighted st) as [cur|]; [| done].
  unfold removeHighlight; cbn. by destruct (originalStyles st !! cur).
Qed.

Lemma stopSelecting_tracked (st0 st : State) :
  tracked st0 st -> tracked st0 (stopSelecting st).
Proof.
  intros H. apply tracked_none; [apply stopSelecting_fields |].
  destruct (stopSelecting_maps st) as [Ho Hi].
  eapply allClean_ext; [exact Ho | exact Hi |].
  destruct (currentHighlighted st) as [cur|] eqn:Hc.
  - by apply tracked_clear.
  - by apply tracked_none.
Qed.

Lemma startSelecting_tracked (st0 st : State) (cb : SelectionCallback) :
  tracked st0 st -> tracked st0 (startSelecting st cb).
Proof.
  intros H.
  assert (H' : tracked st0 (if isSelecting st then stopSelecting st else st))
    by (destruct (isSelecting st); [by apply stopSelecting_tracked | done]).
  revert H'. apply tracked_ext; unfold startSelecting; by destruct (isSelecting st).
Qed.

Lemma runHandler_tracked (doc : Doc) (st0 st : State) (h : Handler) (ev : DomEvent) :
  tracked st0 st -> tracked st0 (fst (runHandler doc h ev st)).
Proof.
  intros H. destruct h, ev as [t | t | k]; cbn; try done.
  - by apply handleMouseMove_tracked.
  - unfold handleClick. destruct (inOwnUi doc t); cbn; [done |].
    by apply stopSelecting_tracked.
  - unfold handleKeyDown. destruct (String.eqb k "Escape"); [| done].
    by apply stopSelecting_tracked.
Qed.

Lemma deliver_tracked (doc : Doc) (st0 : State) (ev : DomEvent)
    (ls : list Listener) :
  forall st out, tracked st0 st -> tracked st0 (fst (deliver doc ev ls st out)).
Proof.
  induction ls as [|[ty h] ls IH]; intros st out H; cbn [deliver]; [done |].
  destruct (bool_decide (ty = eventType ev) && bool_decide ((ty, h) ∈ listeners st));
    [| by apply IH].
  pose proof (runHandler_tracked doc st0 st h ev H) as H'.
  destruct (runHandler doc h ev st) as [st' o]. by apply IH.
Qed.

Lemma run_tracked (doc : Doc) (st0 : State) (acts : list Action) :
  forall st,
    forallb pickerAction acts = true ->
    tracked st0 st -> tracked st0 (run doc st acts).
Proof.
  induction acts as [|a acts IH]; intros st Hp H; [done |].
  cbn [forallb] in Hp. apply andb_true_iff in Hp as [Ha Hp].
  cbn [run fold_left]. apply (IH _ Hp).
  destruct a as [cb | | ev | el | el]; cbn [step]; try done.
  - by apply startSelecting_tracked.
  - by apply stopSelecting_tracked.
  - by apply deliver_tracked.
Qed.

(** X14. In a session nobody previews in, the picker changes the style
    of one element at a time.  The element under the cursor carries the
    highlight and its former style is kept in the snapshot map; every
    other element has no snapshot and the style it had when the script
    was loaded.  Once the picker is idle the snapshot map is empty and
    every element has its former style. *)
Theorem picker_restores_styles (doc : Doc) (styles : gmap Handle Style)
    (cursor : string) (acts : list Action) :
  forallb pickerAction acts = true ->
  let st0 := initial styles cursor in
  let st := run doc st0 acts in
  tracked st0 st
  /\ (forall el, originalStyles st !! el <> None -> currentHighlighted st = Some el)
  /\ (forall el, currentHighlighted st <> Some el -> styleOf st el = styleOf st0 el)
  /\ (isSelecting st = false ->
      originalStyles st = ∅ /\ forall el, styleOf st el = styleOf st0 el).
Proof.
  intros Hp st0 st.
  assert (Ht : tracked st0 st).
  { apply run_tracked; [done |]. apply tracked_none; [done |].
    intros el. split; [apply lookup_empty | done]. }
  split; [done |]. split; [| split].
  - intros el Hne. specialize (Ht el).
    destruct (bool_decide (currentHighlighted st = Some el)) eqn:E.
    + by apply bool_decide_eq_true in E.
    + by destruct Ht.
  - intros el Hne. specialize (Ht el).
    rewrite bool_decide_eq_false_2 in Ht by done. apply Ht.
  - intros Hidle.
    assert (Hc : consistent st) by apply run_consistent, initial_consistent.
    assert (Hn : currentHighlighted st = None).
    { destruct Hc as [(_ & _ & Hn & _) | (Hs & _)]; [done | congruence]. }
    apply (tracked_none st0 st Hn) in Ht. split.
    + apply map_eq. intros el. rewrite lookup_empty. apply Ht.
    + intros el. apply Ht.
Qed.

Lemma picker_restores_styles_witness :
  styleOf
    (run Sample.loginPage (initial ∅ "")
       [Start 7; Event (EvMouseMove Sample.thePassword);
        Event (EvMouseMove Sample.theParagraph); Event (EvKeyDown "Escape")])
    Sample.thePassword
  = styleOf (initial ∅ "") Sample.thePassword.
Proof.
  refine (proj2 (proj2 (proj2 (proj2
    (picker_restores_styles Sample.loginPage ∅ "" _ _))) _) _).
  - reflexivity.
  - reflexivity.
Defined.

Lemma handleMouseMove_same (doc : Doc) (st : State) (target : Handle) :
  currentHighlighted st = Some target -> handleMouseMove doc st target = st.
Proof.
  intros Hc. unfold handleMouseMove. destruct (inOwnUi doc target); [done |].
  rewrite Hc. rewrite (bool_decide_eq_true_2 (target = target)) by done.
  cbn [negb]. rewrite Hc.
  by rewrite (bool_decide_eq_true_2 (Some target = Some target)).
Qed.

Lemma handleMouseMove_current (doc : Doc) (st : State) (target : Handle) :
  inOwnUi doc target = false ->
  currentHighlighted (handleMouseMove doc st target) = Some target.
Proof.
  intros Hui. unfold handleMouseMove. rewrite Hui.
  set (st1 := match currentHighlighted st with
              | Some cur => if negb (bool_decide (cur = target))
                            then removeHighlight st cur else st
              | None => st
              end).
  destruct (bool_decide (currentHighlighted st1 = Some target)) eqn:E; cbn [negb].
  - by apply bool_decide_eq_true in E.
  - done.
Qed.

(** X15. Pointer moves settle: a move over the extension's own UI
    changes nothing, a move over any other element makes it the
    highlighted one, and a second move over the same element changes
    nothing any more, so the snapshot of its style is taken once. *)
Theorem handleMouseMove_settles (doc : Doc) (st : State) (target : Handle) :
  handleMouseMove doc (handleMouseMove doc st target) target
  = handleMouseMove doc st target
  /\ (inOwnUi doc target = true -> handleMouseMove doc st target = st)
  /\ (inOwnUi doc target = false ->
      currentHighlighted (handleMouseMove doc st target) = Some target).
Proof.
  split; [| split].
  - destruct (inOwnUi doc target) eqn:Hui.
    + unfold handleMouseMove. by rewrite !Hui.
    + apply handleMouseMove_same. by apply handleMouseMove_current.
  - intros Hui. unfold handleMouseMove. by rewrite Hui.
  - apply handleMouseMove_current.
Qed.

End Styles.

Section Previews.
Import Dom Selector Preview.

Variable querySelector : Doc -> string -> Switcher.Query.

Lemma stopSelecting_style (st : State) (el : Handle) :
  originalStyles st !! el = None ->
  styleOf (stopSelecting st) el = styleOf st el
  /\ originalStyles (stopSelecting st) !! el = None.
Proof.
  intros Ho. destruct (stopSelecting_maps st) as [H1 H2].
  unfold styleOf. rewrite H1, H2.
  destruct (currentHighlighted st) as [cur|]; [| done].
  destruct (decide (el = cur)) as [-> | Hne].
  - unfold removeHighlight. by rewrite Ho.
  - destruct (removeHighlight_other st cur el Hne) as [H3 H4].
    unfold styleOf in H3. by rewrite H3, H4.
Qed.

(** X16. [highlightElement] does nothing for a selector that resolves to
    no element or is no selector.  For an element without snapshot the
    highlight is gone when the timer has fired.  For the element the
    picker has under the cursor the call overwrites the snapshot with
    the highlight itself: after the timer, and after the session has
    ended, the element still has the style it had under the cursor, and
    no snapshot is left to restore it from. *)
Theorem highlightElement_snapshot (doc : Doc) (st : State) (selector : string) :
  ((forall el, querySelector doc selector <> Switcher.Found (Some el)) ->
   highlightElement querySelector doc st selector = (st, None))
  /\ (forall el,
         querySelector doc selector = Switcher.Found (Some el) ->
         let armed := highlightElement querySelector doc st selector in
         let st2 := previewTimer (fst armed) (snd armed) in
         snd armed = Some el
         /\ styleOf (fst armed) el = HIGHLIGHT_STYLE
         /\ styleOf st2 el = styleOf st el
         /\ originalStyles st2 !! el = None
         /\ styleOf (stopSelecting st2) el = styleOf st el
         /\ originalStyles (stopSelecting st2) !! el = None).
Proof.
  split.
  - intros Hno. unfold highlightElement.
    destruct (querySelector doc selector) as [|[el|]]; try done.
    by destruct (Hno el).
  - intros el Hq armed st2. subst armed st2. unfold highlightElement.
    rewrite Hq. cbn [fst snd previewTimer].
    destruct (addHighlight_self st el) as [Hs Ho].
    destruct (removeHighlight_self _ el _ Ho) as [Hs2 Ho2].
    assert (Hst : styleOf (removeHighlight (addHighlight st el) el) el
                  = styleOf st el) by apply removeHighlight_addHighlight_style.
    destruct (stopSelecting_style _ el Ho2) as [Hs3 Ho3].
    repeat split; try done. by rewrite Hs3.
Qed.

End Previews.

Section PreviewRuns.
Import Dom Selector Preview.

Lemma highlightElement_snapshot_witness :
  let hovering :=
    handleMouseMove Sample.loginPage (startSelecting (initial ∅ "") 7)
      Sample.theSubmit in
  let armed := highlightElement Sample.idQuery Sample.loginPage hovering "#submit" in
  styleOf (stopSelecting (previewTimer (fst armed) (snd armed))) Sample.theSubmit
  = HIGHLIGHT_STYLE.
Proof.
  intros hovering armed.
  destruct (proj2 (highlightElement_snapshot Sample.idQuery Sample.loginPage
                     hovering "#submit") Sample.theSubmit)
    as (_ & _ & _ & _ & H & _); [reflexivity |].
  exact H.
Defined.

End PreviewRuns.

(** ** More on the synthesizer *)

Section Candidates.
Import JsString Dom Selector Preview.




Lemma anchored_links (doc : Doc) (hs : list Handle) :
  forallb pathLink (anchored doc hs) = true
  /\ (length (anchored doc hs) <= length hs)%nat
  /\ forall k c, anchored doc hs !! k = Some c ->
                 (S k < length (anchored doc hs))%nat ->
                 exists t n, c = ByTag t n.
Proof.
  induction hs as [|h hs (IH1 & IH2 & IH3)]; cbn [anchored].
  - split; [done |]. split; [done |]. intros k c Hk. done.
  - destruct (node doc h) as [e|]; [| by repeat split; cbn; try lia].
    destruct (truthy (Dom.id e)).
    + split; [done |]. split; [cbn; lia |]. intros [|k] c Hk Hlt; cbn in *; lia.
    + split; [| split].
      * cbn [forallb]. rewrite IH1. unfold tagSegment.
        by destruct (2 <=? _)%nat.
      * cbn [length]. lia.
      * intros [|k] c Hk Hlt; cbn in Hk, Hlt.
        -- injection Hk as <-. unfold tagSegment. destruct (2 <=? _)%nat; eauto.
        -- apply (IH3 k c Hk). lia.
Qed.

Lemma untilBody_length (doc : Doc) (hs : list Handle) :
  (length (untilBody doc hs) <= length hs)%nat.
Proof.
  induction hs as [|h hs IH]; cbn; [done |].
  destruct (bool_decide _); cbn; lia.
Qed.

Lemma selfAndAncestors_length (h : Handle) :
  length (selfAndAncestors h) = S (length h).
Proof. induction h as [|i h IH]; cbn; [done | by rewrite IH]. Qed.

Lemma generateSelectorForElement_cases (doc : Doc) (el : Handle) (e : Element) :
  node doc el = Some e ->
  let s := generateSelectorForElement doc el in
  (idCandidate e = Some s)
  \/ (idCandidate e = None
      /\ (attrCandidate doc e "name" = Some s
          \/ classCandidate doc e = Some s
          \/ attrCandidate doc e "placeholder" = Some s
          \/ attrCandidate doc e "type" = Some s))
  \/ (noCandidate doc e /\ s = rev (fallbackChain doc el)).
Proof.
  intros Hn s. subst s. unfold generateSelectorForElement, noCandidate.
  rewrite Hn.
  destruct (idCandidate e); [by left |].
  destruct (attrCandidate doc e "name"); [right; left; by eauto |].
  destruct (classCandidate doc e); [right; left; by eauto 6 |].
  destruct (attrCandidate doc e "placeholder"); [right; left; by eauto 6 |].
  destruct (attrCandidate doc e "type"); [right; left; by eauto 6 |].
  right. right. by rewrite walk_fallbackChain, app_nil_r.
Qed.



(** X18. The fallback path has at most one [#id] link, and only at its
    top; every link below is a tag, numbered or not.  It has at most
    one link per element from the picked one up to the root. *)
Theorem fallback_anchor_on_top (doc : Doc) (el : Handle) (e : Element) :
  node doc el = Some e ->
  noCandidate doc e ->
  let s := generateSelectorForElement doc el in
  (length s <= S (length el))%nat
  /\ forallb pathLink s = true
  /\ forall k c, s !! k = Some c -> (0 < k)%nat -> exists t n, c = ByTag t n.
Proof.
  intros Hn Hno s.
  pose proof (generateSelectorForElement_cases doc el e Hn) as Hcases.
  cbv zeta in Hcases. fold s in Hcases.
  destruct Hcases as [Hid | [(Hid & Hc) | (_ & Hs)]].
  { destruct Hno as (H & _). congruence. }
  { destruct Hno as (_ & H1 & H2 & H3 & H4).
    destruct Hc as [H | [H | [H | H]]]; congruence. }
  destruct (anchored_links doc (untilBody doc (selfAndAncestors el)))
    as (Hl & Hlen & Htags).
  fold (fallbackChain doc el) in Hl, Hlen, Htags.
  pose proof (untilBody_length doc (selfAndAncestors el)) as Hu.
  rewrite selfAndAncestors_length in Hu.
  rewrite Hs. split; [rewrite length_rev; lia |]. split.
  - apply forallb_forall. intros c Hc. apply in_rev in Hc.
    by apply (proj1 (forallb_forall _ _) Hl).
  - intros k c Hk Hpos.
    assert (Hlt : (k < length (fallbackChain doc el))%nat).
    { apply lookup_lt_Some in Hk. by rewrite length_rev in Hk. }
    rewrite rev_alt in Hk. change (rev_append ?l []) with (reverse l) in Hk.
    apply reverse_lookup_Some in Hk as [Hk _].
    apply (Htags _ c Hk). lia.
Qed.

Lemma fallback_anchor_on_top_witness :
  (length (generateSelectorForElement Sample.loginPage Sample.theParagraph)
   <= 5)%nat.
Proof.
  refine (proj1 (fallback_anchor_on_top Sample.loginPage Sample.theParagraph
                   (Elem "P" "" [] [] []) _ _)).
  - reflexivity.
  - by repeat split.
Defined.

End Candidates.

(** ** Filling a field, logging out, and the hand-off as a whole *)

Section Filling.
  Import Dom Switcher.

Variable querySelector : Doc -> string -> Query.
Variable docAt : Z -> Doc.
Local Abbreviation waitForElement := (waitForElement querySelector docAt).
Local Abbreviation fillField := (fillField querySelector docAt).
Local Abbreviation fillAllFields := (fillAllFields querySelector docAt).
Local Abbreviation clickLoginButton := (clickLoginButton querySelector docAt).


Lemma waitForElement_deadline (selector : string) (timeout : Z) (w : World) :
  (now w <= now (after (waitForElement selector timeout w))
   <= now w + Z.max 0 timeout)%Z.
Proof.
  rewrite waitForElement_eq.
  destruct (querySelector (docAt (now w)) selector) as [|[e|]];
    cbn [after fst snd]; try lia.
  destruct (body (docAt (now w))); cbn [after fst snd]; [| lia].
  destruct (observe querySelector docAt selector (now w) _)
    as [[t' e]|] eqn:Ho; cbn [after fst snd now setNow]; [| lia].
  apply observe_Some in Ho as [Ho _]. lia.
Qed.

Lemma fillField_eq (field : FieldConfig.t) (w : World) :
  let r0 := waitForElement (FieldConfig.selector field) 5000 w in
  let doc := docAt (now (after r0)) in
  let fill input :=
    [Focus input; SetValue input (FieldConfig.value field);
     Dispatch input "input"; Dispatch input "change";
     Dispatch input "keydown"; Dispatch input "keyup";
     Console Log (FieldFilled (FieldConfig.label field))] in
  fillField field w =
    match result r0 with
    | Rejected =>
        (false, after r0,
         trace r0 ++ [Console Error (FieldFailed (FieldConfig.label field))])
    | Resolved None =>
        (false, after r0,
         trace r0 ++ [Console Warn (ElementNotFound (FieldConfig.selector field))])
    | Resolved (Some el) =>
        if isInputTag doc el then (true, after r0, trace r0 ++ fill el)
        else
          match querySelectorInput doc el with
          | Some input =>
              (true, after r0,
               trace r0 ++ Console Log InnerInputFound :: fill input)
          | None =>
              (false, after r0,
               trace r0
               ++ [Console Warn (NotAnInput (FieldConfig.selector field))])
          end
    end.
Proof.
  cbv zeta. unfold Switcher.fillField.
  cbv [bind emit get put ret result after trace].
  destruct (waitForElement (FieldConfig.selector field) 5000 w)
    as [[[[el|]|] w1] t1]; cbn [fst snd]; rewrite ?app_nil_r; try reflexivity.
  destruct (isInputTag (docAt (now w1)) el); cbn [fst snd app];
    rewrite ?app_nil_r; [reflexivity |].
  destruct (querySelectorInput (docAt (now w1)) el); cbn [fst snd app];
    rewrite ?app_nil_r; reflexivity.
Qed.


Lemma fillField_duration (field : FieldConfig.t) (w : World) :
  (now w <= now (after (fillField field w)) <= now w + 5000)%Z.
Proof.
  rewrite fillField_eq. cbv zeta.
  pose proof (waitForElement_deadline (FieldConfig.selector field) 5000 w) as Htime.
  change (Z.max 0 5000) with 5000%Z in Htime.
  destruct (waitForElement (FieldConfig.selector field) 5000 w)
    as [[[[el|]|] w1] t1]; cbn [result after trace fst snd] in *; try done.
  destruct (isInputTag _ _); [done |].
  by destruct (querySelectorInput _ _).
Qed.

Lemma fillAllFields_deadline (fields : list FieldConfig.t) :
  forall w,
    (now (after (fillAllFields fields w))
     <= now w + 5100 * Z.of_nat (length fields))%Z.
Proof.
  induction fields as [|field rest IH]; intros w.
  - cbn. lia.
  - rewrite fillAllFields_cons. cbv zeta. cbn [after fst snd].
    pose proof (fillField_duration field w) as Hf.
    specialize (IH (setNow (after (fillField field w))
                      (now (after (fillField field w)) + 100))).
    cbn [now setNow] in IH. cbn [length]. lia.
Qed.

Lemma clickLoginButton_duration (selector : string) (w : World) :
  (now w <= now (after (clickLoginButton selector w)) <= now w + 5000)%Z.
Proof.
  unfold Switcher.clickLoginButton. cbv [bind emit get put ret].
  pose proof (waitForElement_deadline selector 5000 w) as Htime.
  change (Z.max 0 5000) with 5000%Z in Htime.
  by destruct (waitForElement selector 5000 w) as [[[[el|]|] w1] t1];
    cbn [result after trace fst snd] in *.
Qed.


End Filling.

Section Resume.
  Import Dom Switcher Frame.

Variable querySelector : Doc -> string -> Query.
Variable docAt : Z -> Doc.
Variable JSON_parse : string -> option FillData.t.
Variable JSON_stringify : FillData.t -> string.
Local Abbreviation fillAllFields := (fillAllFields querySelector docAt).
Local Abbreviation clickLoginButton := (clickLoginButton querySelector docAt).
Local Abbreviation checkAndFillPending :=
  (checkAndFillPending querySelector docAt JSON_parse).
Local Abbreviation switchEnvironment := (switchEnvironment JSON_stringify).

Lemma onlyTime_keepsPage (w w' : World) : onlyTime w w' -> keepsPage w w'.
Proof. intros [_ ->]. by repeat split. Qed.

Lemma onlyTime_keepsStore (w w' : World) : onlyTime w w' -> keepsStore w w'.
Proof. intros [_ ->] k _. reflexivity. Qed.

(** The resume phase on a staged text that parses: what it leaves. *)
Lemma checkAndFillPending_after (w : World) (text : string)
    (fillData : FillData.t) :
  chromeStorage w !! PENDING_KEY = Some (VString text) ->
  JSON_parse text = Some fillData ->
  exists t,
    after (checkAndFillPending w)
    = setChromeStorage (setNow w t) (delete PENDING_KEY (chromeStorage w))
    /\ (now w <= t)%Z
    /\ ((10000 < now w - FillData.timestamp fillData)%Z -> t = now w)
    /\ ((now w - FillData.timestamp fillData <= 10000)%Z ->
        (now w + 500 + 100 * Z.of_nat (length (FillData.fields fillData)) <= t
         <= now w + 5800
            + 5100 * Z.of_nat (length (FillData.fields fillData)))%Z).
Proof.
  intros Hs Hp. rewrite (checkAndFillPending_eq _ _ _ w text fillData Hs Hp).
  destruct (10000 <? now w - FillData.timestamp fillData)%Z eqn:Hage.
  { apply Z.ltb_lt in Hage. exists (now w). cbn [after fst snd].
    split; [by destruct w |]. split; [lia |]. split; [done | lia]. }
  apply Z.ltb_ge in Hage. cbv zeta.
  destruct (fillAllFields_Sequenced querySelector docAt
              (FillData.fields fillData) (setNow w (now w + 500)))
    as [_ [Hle Heq]].
  pose proof (fillAllFields_duration querySelector docAt
                (FillData.fields fillData) (setNow w (now w + 500))) as Hlow.
  pose proof (fillAllFields_deadline querySelector docAt
                (FillData.fields fillData) (setNow w (now w + 500))) as Hup.
  set (r1 := fillAllFields _ _) in *.
  cbn [now setNow] in Hle, Hlow, Hup.
  set (w2 := setChromeStorage (after r1) _).
  assert (Hw2 : forall t, setNow w2 t
                = setChromeStorage (setNow w t)
                    (delete PENDING_KEY (chromeStorage w))).
  { intros t. subst w2. rewrite Heq. reflexivity. }
  assert (Hn2 : now w2 = now (after r1)) by reflexivity.
  assert (Hplain : w2 = setNow w2 (now w2)) by (by destruct w2).
  destruct (FillData.loginButtonSelector fillData) as [selector|].
  - destruct (Selector.truthy selector).
    + destruct (clickLoginButton_shape querySelector docAt selector
                  (setNow w2 (now w2 + 300))) as (_ & _ & _ & [Hc Hceq]).
      pose proof (clickLoginButton_duration querySelector docAt selector
                    (setNow w2 (now w2 + 300))) as Hcd.
      set (r3 := clickLoginButton _ _) in *.
      cbn [now setNow] in Hc, Hcd. cbn [after fst snd].
      exists (now (after r3)). split.
      * rewrite Hceq. rewrite Hw2. reflexivity.
      * split; [lia |]. split; [lia |]. intros _. lia.
    + cbn [after fst snd]. exists (now w2). split.
      * rewrite Hplain at 1. apply Hw2.
      * split; [lia |]. split; [lia |]. intros _. lia.
  - cbn [after fst snd]. exists (now w2). split.
    + rewrite Hplain at 1. apply Hw2.
    + split; [lia |]. split; [lia |]. intros _. lia.
Qed.

(** The resume phase whatever is in the store. *)
Lemma checkAndFillPending_cases (w : World) :
  checkAndFillPending w = (tt, w, [StorageGet PENDING_KEY])
  \/ (exists text,
        chromeStorage w !! PENDING_KEY = Some (VString text)
        /\ JSON_parse text = None
        /\ checkAndFillPending w
           = (tt, w, [StorageGet PENDING_KEY; Console Error AutoFillFailed]))
  \/ (exists text fillData,
        chromeStorage w !! PENDING_KEY = Some (VString text)
        /\ JSON_parse text = Some fillData).
Proof.
  destruct (chromeStorage w !! PENDING_KEY) as [[text|]|] eqn:Hs.
  - destruct (JSON_parse text) as [fillData|] eqn:Hp.
    + right; right. by exists text, fillData.
    + right; left. exists text. split; [done |]. split; [done |].
      by apply (checkAndFillPending_garbled _ _ _ w text).
  - left. apply checkAndFillPending_absent. by rewrite Hs.
  - left. apply checkAndFillPending_absent. by rewrite Hs.
Qed.

(** X20. The module writes one entry of [chrome.storage.local] only,
    the pending payload: [switchEnvironment] and [checkAndFillPending]
    keep every other entry, [performLogout] keeps them all.  The resume
    phase also keeps the page's own storages and its address, and
    never turns the clock back.  [performLogout] keeps the address,
    ends with the reload whether or not the page's storages could be
    cleared, and leaves both empty when they can be used. *)
Theorem store_frame :
  (forall env w, keepsStore w (after (switchEnvironment env w)))
  /\ (forall w,
         let r := checkAndFillPending w in
         keepsStore w (after r) /\ keepsPage w (after r)
         /\ (now w <= now (after r))%Z)
  /\ (forall w,
         let r := performLogout w in
         chromeStorage (after r) = chromeStorage w
         /\ href (after r) = href w
         /\ (exists t, trace r = t ++ [Reload]
                       /\ forallb (fun e => negb (isRemove e)) t = true)
         /\ (storageAccess w = true ->
             localStorage (after r) = ∅ /\ sessionStorage (after r) = ∅)).
Proof.
  split; [| split].
  - intros env w k Hk. rewrite switchEnvironment_eq. cbn [after fst snd chromeStorage].
    by apply lookup_insert_ne.
  - intros w. cbv zeta.
    destruct (checkAndFillPending_cases w)
      as [-> | [(text & _ & _ & ->) | (text & fillData & Hs & Hp)]].
    + cbn [after fst snd]. split; [done |]. split; [| lia]. by repeat split.
    + cbn [after fst snd]. split; [done |]. split; [| lia]. by repeat split.
    + destruct (checkAndFillPending_after w text fillData Hs Hp)
        as (t & -> & Ht & _).
      split; [| split; [by repeat split | exact Ht]].
      intros k Hk. cbn [chromeStorage setChromeStorage].
      by apply lookup_delete_ne.
  - intros w. cbv zeta. unfold Switcher.performLogout.
    cbv [bind clearLocalStorage clearSessionStorage emit get put ret
         after trace].
    destruct (storageAccess w) eqn:Ha; cbn; rewrite ?Ha; cbn.
    + split; [done |]. split; [done |]. split; [| done].
      by exists [LocalStorageClear; Console Log LocalStorageCleared;
                 SessionStorageClear; Console Log SessionStorageCleared;
                 Console Log LoggedOut].
    + split; [done |]. split; [done |]. split; [| done].
      by exists [LocalStorageClear; Console Error LocalStorageFailed;
                 SessionStorageClear; Console Error SessionStorageFailed;
                 Console Log LoggedOut].
Qed.

(** X21. The resume phase ends.  [fillAllFields] takes between 100 ms
    and 5100 ms per field; on a staged payload that is applied the
    resume phase takes at least 500 ms and 100 ms per field and at most
    5800 ms and 5100 ms per field; on a payload that is too old it
    takes no time. *)
Theorem resume_duration :
  (forall fields w,
      (now w + 100 * Z.of_nat (length fields)
       <= now (after (fillAllFields fields w))
       <= now w + 5100 * Z.of_nat (length fields))%Z)
  /\ (forall w text fillData,
         chromeStorage w !! PENDING_KEY = Some (VString text) ->
         JSON_parse text = Some fillData ->
         let elapsed := (now (after (checkAndFillPending w)) - now w)%Z in
         let n := Z.of_nat (length (FillData.fields fillData)) in
         ((now w - FillData.timestamp fillData <= 10000)%Z ->
          (500 + 100 * n <= elapsed <= 5800 + 5100 * n)%Z)
         /\ ((10000 < now w - FillData.timestamp fillData)%Z ->
             elapsed = 0%Z)).
Proof.
  split.
  - intros fields w. split.
    + apply fillAllFields_duration.
    + apply fillAllFields_deadline.
  - intros w text fillData Hs Hp. cbv zeta.
    destruct (checkAndFillPending_after w text fillData Hs Hp)
      as (t & -> & _ & Hold & Hfresh).
    cbn [now setNow setChromeStorage]. split.
    + intros H. specialize (Hfresh H). lia.
    + intros H. specialize (Hold H). lia.
Qed.


End Resume.

Section HandoffRuns.
  Import Dom Switcher Sample.


Lemma store_frame_witness :
  localStorage
    (after (performLogout
              {| now := 0; chromeStorage := ∅;
                 localStorage := {[ "token" := "t" ]};
                 sessionStorage := ∅; storageAccess := true;
                 href := "https://staging.example.com/" |}))
  = ∅.
Proof.
  refine (proj1 (proj2 (proj2 (proj2
    (proj2 (proj2 (store_frame idQuery rendering parse stringify)) _))) _)).
  reflexivity.
Defined.

Lemma resume_duration_witness :
  (500 + 100 * 1
   <= now (after (checkAndFillPending idQuery rendering parse
                    (arrived 100 "<payload>"))) - 100
   <= 5800 + 5100 * 1)%Z.
Proof.
  refine (proj1 (proj2 (resume_duration idQuery rendering parse)
                   (arrived 100 "<payload>") "<payload>" payload _ _) _).
  - reflexivity.
  - reflexivity.
  - vm_compute. discriminate.
Defined.


End HandoffRuns.
